(** * Skyblock flip finder: the pricing service, embedded and verified

    Shallow embedding of [services/hypixelService.ts] (with the records of
    [types.ts] and the oracles of [services/geminiService.ts] at their
    interface), of the sortable table of [components/AuctionFlips.tsx], of
    the trend filter of [components/MarketTrends.tsx] and of
    [components/ui/LoreParser.tsx], followed by the properties of the
    market-price estimator, the tax schedule, the name normaliser, the
    flip detectors, the auction feed and these views.

    Modelling conventions.
    - A JavaScript [number] that holds a coin amount of the auction feed
      ([starting_bid]) is an integer and is modelled as [Z].  Values the
      code derives with decimal constants or division (tax, relative gap,
      profit, progress, bazaar unit prices) are modelled as exact
      rationals [Q]: the arithmetic is the one the expressions denote, and
      the rounding of binary64 results is not modelled.
    - A JavaScript string is the list of its UTF-16 code units.
    - [await]ed network reads are inputs of the functions; the callback
      of [fetchCraftingFlips] is modelled by the log of its arguments. *)

From Stdlib Require Import Ascii String.
From Stdlib Require Import ZArith QArith Qround Lqa Lia Bool List.
From Stdlib Require Import Sorted Permutation.
From Equations Require Import Equations.
Import ListNotations.

Open Scope Z_scope.

(* ===================================================================== *)
(** ** JavaScript values used by the service *)
(* ===================================================================== *)

Module JS.

(** UTF-16 code units. *)
Definition jsstring := list Z.

Definition jsstring_eq_dec : forall s t : jsstring, {s = t} + {s <> t} :=
  list_eq_dec Z.eq_dec.

Definition jsstring_eqb (s t : jsstring) : bool :=
  if jsstring_eq_dec s t then true else false.

(** Reading a literal of this file (UTF-8 bytes) as UTF-16 code units;
    every character used below lies in the Basic Multilingual Plane. *)
Fixpoint bytes_of_string (s : String.string) : list Z :=
  match s with
  | String.EmptyString => []
  | String.String c r => Z.of_N (Ascii.N_of_ascii c) :: bytes_of_string r
  end.

Fixpoint utf16_of_utf8 (bs : list Z) : jsstring :=
  match bs with
  | [] => []
  | b0 :: r0 =>
      if b0 <? 128 then b0 :: utf16_of_utf8 r0
      else match r0 with
           | [] => [b0]
           | b1 :: r1 =>
               if b0 <? 224 then ((b0 - 192) * 64 + (b1 - 128)) :: utf16_of_utf8 r1
               else match r1 with
                    | [] => [b0; b1]
                    | b2 :: r2 =>
                        ((b0 - 224) * 4096 + (b1 - 128) * 64 + (b2 - 128))
                          :: utf16_of_utf8 r2
                    end
           end
  end.

Definition lit (s : String.string) : jsstring := utf16_of_utf8 (bytes_of_string s).
Arguments lit s%_string_scope.

(** [Math.round]: the integer nearest to [x], ties towards +infinity. *)
Definition Math_round (x : Q) : Z := Qfloor (x + (1 # 2)).

(** [x > y] on numbers. *)
Definition gtb (x y : Q) : bool :=
  match x ?= y with Gt => true | _ => false end%Q.

(** White space and line terminators: the class [\s] of regular
    expressions, which is also what [String.prototype.trim] removes. *)
Definition isWhiteSpace (c : Z) : bool :=
  ((9 <=? c) && (c <=? 13)) || (c =? 32) || (c =? 160) || (c =? 5760)
  || ((8192 <=? c) && (c <=? 8202)) || (c =? 8232) || (c =? 8233)
  || (c =? 8239) || (c =? 8287) || (c =? 12288) || (c =? 65279).

Fixpoint dropWhile {A} (f : A -> bool) (l : list A) : list A :=
  match l with
  | [] => []
  | x :: r => if f x then dropWhile f r else l
  end.

Definition dropWhileEnd {A} (f : A -> bool) (l : list A) : list A :=
  rev (dropWhile f (rev l)).

Definition trim (s : jsstring) : jsstring :=
  dropWhileEnd isWhiteSpace (dropWhile isWhiteSpace s).

(** [s.replace(/c/g, d)] for single code units. *)
Definition replaceAllChar (c d : Z) (s : jsstring) : jsstring :=
  map (fun x => if x =? c then d else x) s.

(** [s.split(sep)] for a one-unit separator: never the empty array. *)
Fixpoint split (sep : Z) (s : jsstring) : list jsstring :=
  match s with
  | [] => [[]]
  | c :: r =>
      if c =? sep then [] :: split sep r
      else match split sep r with
           | w :: ws => (c :: w) :: ws
           | [] => [[c]]
           end
  end.

(** [words.join(sep)]. *)
Fixpoint join (sep : jsstring) (ws : list jsstring) : jsstring :=
  match ws with
  | [] => []
  | [w] => w
  | w :: r => w ++ sep ++ join sep r
  end.

(** A [Map] keyed by strings: entries in insertion order; [set] on a key
    already present keeps its position. *)
Section StringMap.
Context {V : Type}.

Definition Map := list (jsstring * V).

Fixpoint get (m : Map) (k : jsstring) : option V :=
  match m with
  | [] => None
  | (k', v) :: r => if jsstring_eqb k' k then Some v else get r k
  end.

Definition has (m : Map) (k : jsstring) : bool :=
  match get m k with Some _ => true | None => false end.

Fixpoint set (m : Map) (k : jsstring) (v : V) : Map :=
  match m with
  | [] => [(k, v)]
  | (k', v') :: r =>
      if jsstring_eqb k' k then (k', v) :: r else (k', v') :: set r k v
  end.

Definition entries (m : Map) : list (jsstring * V) := m.

Definition values (m : Map) : list V := map snd m.
End StringMap.
Arguments Map : clear implicits.

End JS.

Import JS.

(* ===================================================================== *)
(** ** types.ts *)
(* ===================================================================== *)

Inductive Rarity : Type :=
| COMMON | UNCOMMON | RARE | EPIC | LEGENDARY | MYTHIC | SPECIAL | VERY_SPECIAL.

Record RawAuction : Type := mkRawAuction {
  uuid : jsstring;
  item_name : jsstring;
  tier : Rarity;
  starting_bid : Z;
  bin : bool;
  claimed : bool;
  item_lore : jsstring
}.

Module AuctionFlip.
Record t : Type := mk {
  id : jsstring;
  itemName : jsstring;
  rarity : Rarity;
  lore : jsstring;
  lowestBin : Z;
  marketPrice : Z;
  profit : Z
}.
End AuctionFlip.

Module BazaarFlip.
Record t : Type := mk {
  id : jsstring;
  itemName : jsstring;
  buyPrice : Q;
  sellPrice : Q;
  profit : Q;
  buyVolume : Q;
  sellVolume : Q
}.
End BazaarFlip.

Module Ingredient.
Record t : Type := mk {
  id : jsstring;
  name : jsstring;
  quantity : Q
}.
End Ingredient.

Module CraftingFlip.
Record t : Type := mk {
  id : jsstring;
  itemName : jsstring;
  rarity : Rarity;
  marketPrice : Z;
  craftCost : Z;
  profit : Z;
  recipe : list Ingredient.t
}.
End CraftingFlip.

(** geminiService.ts: what the recipe oracle returns per ingredient. *)
Record RecipeIngredient : Type := mkRecipeIngredient {
  ingredientId : jsstring;
  quantity : Q
}.

(** hypixelService.ts: [ItemForAnalysis]. *)
Module ItemForAnalysis.
Record t : Type := mk {
  id : jsstring;
  name : jsstring;
  lore : jsstring;
  rarity : Rarity;
  price : Z
}.
End ItemForAnalysis.

(** The bazaar snapshot as deserialised from the marketplace API. *)
Module QuickStatus.
Record t : Type := mk {
  sellPrice : Q;
  buyPrice : Q;
  buyMovingWeek : Q;
  sellMovingWeek : Q
}.
End QuickStatus.

Record Product : Type := mkProduct {
  product_id : jsstring;
  quick_status : option QuickStatus.t
}.

Record BazaarData : Type := mkBazaarData {
  success : bool;
  cause : option jsstring;
  products : list (jsstring * Product)
}.

Record BazaarResponse : Type := mkBazaarResponse {
  ok : bool;
  json : BazaarData
}.

(** hypixelService.ts: an entry of the price map of [fetchBazaarPrices]. *)
Record MaterialInfo : Type := mkMaterialInfo {
  price : Q;
  name : jsstring
}.

(** One page of the auction feed as deserialised, and the response that
    carries the first one. *)
Module AuctionPage.
Record t : Type := mk {
  success : bool;
  cause : option jsstring;
  auctions : list RawAuction;
  totalPages : nat
}.
End AuctionPage.

Module PageResponse.
Record t : Type := mk {
  ok : bool;
  statusText : jsstring;
  json : AuctionPage.t
}.
End PageResponse.

(** Outcome of an [async] function: the resolved value or the thrown error. *)
Inductive Outcome (A : Type) : Type :=
| Resolved (value : A)
| Rejected (message : jsstring).
Arguments Resolved {A} value.
Arguments Rejected {A} message.

(* ===================================================================== *)
(** ** services/hypixelService.ts *)
(* ===================================================================== *)

Definition PROFIT_THRESHOLD : Q := 50000.
Definition MIN_PRICE : Z := 1.

(** *** normalizeAuctionName *)

(** The class [[a-f0-9k-or]]. *)
Definition isColorCode (c : Z) : bool :=
  ((97 <=? c) && (c <=? 102)) || ((48 <=? c) && (c <=? 57))
  || ((107 <=? c) && (c <=? 111)) || (c =? 114).

Definition SECTION_SIGN : Z := 167.
Definition STAR : Z := 10026.
Definition STAFF : Z := 9882.

(** [s.replace(/§[a-f0-9k-or]/g, '')]: matches are found left to right and
    do not overlap; the text after a match is scanned on. *)
Fixpoint removeColorCodes (s : jsstring) : jsstring :=
  match s with
  | [] => []
  | c :: r =>
      match r with
      | [] => [c]
      | d :: r' =>
          if (c =? SECTION_SIGN) && isColorCode d then removeColorCodes r'
          else c :: removeColorCodes r
      end
  end.

(** The class [[\s✪⚚]]. *)
Definition isAffix (c : Z) : bool :=
  (c =? STAR) || (c =? STAFF) || isWhiteSpace c.

(** [s.replace(/^[✪⚚\s]+|[\s✪⚚]+$/g, '')]: the leading run of the class is
    removed, then the run that ends the string. *)
Definition stripAffixes (s : jsstring) : jsstring :=
  dropWhileEnd isAffix (dropWhile isAffix s).

Definition normalizeAuctionName (name : jsstring) : jsstring :=
  trim (stripAffixes (removeColorCodes name)).

(** *** calculateAhTax *)

Definition calculateAhTax (price : Q) : Q :=
  if Qle_bool 1000000 price then price * (2 # 100)
  else price * (1 # 100).

Section Service.

(** Unicode case mappings of [String.prototype]; their tables are not part
    of the service. *)
Variable toLowerCase : jsstring -> jsstring.
Variable toUpperCase : jsstring -> jsstring.

(** The recipe oracle of geminiService.ts.  It catches its own failures and
    then resolves to the empty array, so a call always resolves. *)
Variable analyzeCraftingRecipe : jsstring -> list RecipeIngredient.

(** *** formatItemName *)

Definition capitalize (word : jsstring) : jsstring :=
  toUpperCase (firstn 1 word) ++ skipn 1 word.

Definition formatItemName (name : jsstring) : jsstring :=
  join [32] (map capitalize (split 32 (toLowerCase (replaceAllChar 95 32 name)))).

(** *** Bazaar *)

Definition orDefault (c : option jsstring) (d : jsstring) : jsstring :=
  match c with
  | Some (x :: r) => x :: r
  | _ => d
  end.

Definition addPrice (priceMap : Map MaterialInfo) (entry : jsstring * Product)
  : Map MaterialInfo :=
  let (productId, product) := entry in
  match quick_status product with
  | Some status =>
      if gtb (QuickStatus.sellPrice status) 0 then
        set priceMap productId
            (mkMaterialInfo (QuickStatus.sellPrice status)
                            (formatItemName (product_id product)))
      else priceMap
  | None => priceMap
  end.

Definition fetchBazaarPrices (response : BazaarResponse)
  : Outcome (Map MaterialInfo) :=
  if negb (ok response) then Rejected (lit "Failed to fetch Bazaar data")
  else
    let data := json response in
    if negb (success data)
    then Rejected (orDefault (cause data) (lit "Bazaar API call failed"))
    else Resolved (fold_left addPrice (products data) []).

(** One turn of the loop over [data.products]: the flip pushed, if any. *)
Definition bazaarFlipOf (entry : jsstring * Product) : option BazaarFlip.t :=
  let (productId, product) := entry in
  match quick_status product with
  | Some status =>
      if gtb (QuickStatus.sellPrice status) 0
         && gtb (QuickStatus.buyPrice status) 0
      then
        let buyFor := QuickStatus.sellPrice status in
        let sellFor := QuickStatus.buyPrice status in
        let profit := (sellFor - buyFor)%Q in
        if gtb profit 100 && gtb (QuickStatus.buyMovingWeek status) 100
        then Some (BazaarFlip.mk productId
                     (formatItemName (product_id product))
                     buyFor sellFor profit
                     (QuickStatus.buyMovingWeek status)
                     (QuickStatus.sellMovingWeek status))
        else None
      else None
  | None => None
  end.

Definition pushFlip {A} (flips : list A) (o : option A) : list A :=
  match o with
  | Some f => flips ++ [f]
  | None => flips
  end.

Definition fetchBazaarFlips (response : BazaarResponse)
  : Outcome (list BazaarFlip.t) :=
  if negb (ok response) then Rejected (lit "Failed to fetch Bazaar data")
  else
    let data := json response in
    if negb (success data)
    then Rejected (orDefault (cause data) (lit "Bazaar API call failed"))
    else Resolved
           (fold_left (fun flips entry => pushFlip flips (bazaarFlipOf entry))
                      (products data) []).


(** *** findMarketPriceAuction *)

Definition GAP_THRESHOLD : Q := 8 # 100.

Definition marketCandidatesOf (sortedAuctions : list RawAuction) : list RawAuction :=
  skipn 1 sortedAuctions.

Definition q1IndexOf (prices : list Z) : nat := (length prices / 4)%nat.
Definition q3IndexOf (prices : list Z) : nat := (length prices * 3 / 4)%nat.

(** [q3 + 2.0 * iqr]; both reads are guarded by the index test of the
    caller, so the default of [nth] is never used. *)
Definition upperBoundOf (prices : list Z) : Z :=
  let q1 := nth (q1IndexOf prices) prices 0 in
  let q3 := nth (q3IndexOf prices) prices 0 in
  let iqr := q3 - q1 in
  q3 + 2 * iqr.

Definition filteredCandidatesOf (sortedAuctions : list RawAuction) : list RawAuction :=
  let marketCandidates := marketCandidatesOf sortedAuctions in
  let upperBound := upperBoundOf (map starting_bid marketCandidates) in
  filter (fun a => starting_bid a <=? upperBound) marketCandidates.

Definition gap (priceA priceB : Z) : Q :=
  inject_Z (priceB - priceA) / inject_Z priceA.

(** The wall loop, started at index [i] on the candidates from [i] on:
    [Some k] when it leaves through [break] with [wallStartIndex = k],
    [None] when [wallStartIndex] is still [-1] after the last pair. *)
Fixpoint findWall (candidates : list RawAuction) (i : nat) : option nat :=
  match candidates with
  | a :: rest =>
      match rest with
      | b :: _ =>
          let priceA := starting_bid a in
          let priceB := starting_bid b in
          if (0 <? priceA) && gtb (gap priceA priceB) GAP_THRESHOLD
          then Some (i + 1)%nat
          else findWall rest (i + 1)%nat
      | [] => None
      end
  | [] => None
  end.

(** The [return] statement a call leaves through. *)
Inductive ReturnSite : Type :=
| FewerThanThree
| NotEnoughDataForIQR
| FilteringTooAggressive
| AfterJump
| NoJump.

Definition findMarketPriceAuction_at (sortedAuctions : list RawAuction)
  : ReturnSite * option RawAuction :=
  if (length sortedAuctions <? 3)%nat then
    (FewerThanThree, nth_error sortedAuctions 1)
  else
    let marketCandidates := marketCandidatesOf sortedAuctions in
    let prices := map starting_bid marketCandidates in
    let q1Index := q1IndexOf prices in
    let q3Index := q3IndexOf prices in
    if (length prices <=? q1Index)%nat || (length prices <=? q3Index)%nat then
      (NotEnoughDataForIQR, nth_error marketCandidates 0)
    else
      let filteredCandidates := filteredCandidatesOf sortedAuctions in
      if (length filteredCandidates <? 2)%nat then
        (FilteringTooAggressive, nth_error marketCandidates 0)
      else
        match findWall filteredCandidates 0 with
        | Some wallStartIndex =>
            (AfterJump, nth_error filteredCandidates wallStartIndex)
        | None => (NoJump, nth_error filteredCandidates 0)
        end.

Definition findMarketPriceAuction (sortedAuctions : list RawAuction)
  : option RawAuction :=
  snd (findMarketPriceAuction_at sortedAuctions).

(** *** fetchAuctionFlips *)

(** [auctions.sort((a, b) => a.starting_bid - b.starting_bid)]: the sort is
    stable, so its result is the stable ascending arrangement, which
    insertion from the right computes. *)
Fixpoint insertByBid (a : RawAuction) (sorted : list RawAuction) : list RawAuction :=
  match sorted with
  | [] => [a]
  | b :: r =>
      if starting_bid a <=? starting_bid b then a :: b :: r
      else b :: insertByBid a r
  end.

Definition sortByBid (auctions : list RawAuction) : list RawAuction :=
  fold_right insertByBid [] auctions.

Definition isActiveBin (auc : RawAuction) : bool := bin auc && negb (claimed auc).

Definition addToGroup (groupedAuctions : Map (list RawAuction)) (auction : RawAuction)
  : Map (list RawAuction) :=
  let normalizedName := normalizeAuctionName (item_name auction) in
  let grouped :=
    if has groupedAuctions normalizedName then groupedAuctions
    else set groupedAuctions normalizedName [] in
  match get grouped normalizedName with
  | Some members => set grouped normalizedName (members ++ [auction])
  | None => grouped
  end.

Definition groupAuctions (activeBins : list RawAuction) : Map (list RawAuction) :=
  fold_left addToGroup activeBins [].

(** One turn of the loop over the groups: the flip pushed, if any. *)
Definition auctionFlipOf (entry : jsstring * list RawAuction) : option AuctionFlip.t :=
  let (itemName, auctions) := entry in
  if (length auctions <? 2)%nat then None
  else
    let sortedAuctions := sortByBid auctions in
    match sortedAuctions with
    | [] => None
    | buyAuction :: _ =>
        let buyPrice := starting_bid buyAuction in
        if buyPrice <? MIN_PRICE then None
        else
          match findMarketPriceAuction sortedAuctions with
          | None => None
          | Some marketPriceAuction =>
              let marketPrice := starting_bid marketPriceAuction in
              if marketPrice <=? buyPrice then None
              else
                let postTaxSellPrice :=
                  (inject_Z marketPrice - calculateAhTax (inject_Z marketPrice))%Q in
                let profit := (postTaxSellPrice - inject_Z buyPrice)%Q in
                if gtb profit PROFIT_THRESHOLD then
                  Some (AuctionFlip.mk (uuid buyAuction) itemName (tier buyAuction)
                          (item_lore buyAuction) buyPrice marketPrice
                          (Math_round profit))
                else None
          end
    end.

Definition fetchAuctionFlips (allAuctions : list RawAuction) : list AuctionFlip.t :=
  let activeBins := filter isActiveBin allAuctions in
  let groupedAuctions := groupAuctions activeBins in
  fold_left (fun flips entry => pushFlip flips (auctionFlipOf entry))
            (entries groupedAuctions) [].

(** *** fetchCraftingFlips *)

Definition CRAFT_PROFIT_THRESHOLD : Q := 100000.

(** The loop over the ingredients of one recipe, from the running
    [craftCost] and [recipeForDisplay]; the first component is
    [isCraftable] when the loop ends. *)
Fixpoint priceRecipe (bazaarPrices : Map MaterialInfo)
    (recipeIngredients : list RecipeIngredient)
    (craftCost : Q) (recipeForDisplay : list Ingredient.t)
  : bool * Q * list Ingredient.t :=
  match recipeIngredients with
  | [] => (true, craftCost, recipeForDisplay)
  | ingredient :: rest =>
      match get bazaarPrices (ingredientId ingredient) with
      | None => (false, craftCost, recipeForDisplay)
      | Some materialInfo =>
          priceRecipe bazaarPrices rest
            (craftCost + price materialInfo * quantity ingredient)%Q
            (recipeForDisplay
               ++ [Ingredient.mk (ingredientId ingredient) (name materialInfo)
                     (quantity ingredient)])
      end
  end.

(** What one candidate contributes once its recipe is known. *)
Definition craftingFlipOf (bazaarPrices : Map MaterialInfo)
    (item : ItemForAnalysis.t) (recipeIngredients : list RecipeIngredient)
  : option CraftingFlip.t :=
  match recipeIngredients with
  | [] => None
  | _ :: _ =>
      match priceRecipe bazaarPrices recipeIngredients 0 [] with
      | (isCraftable, craftCost, recipeForDisplay) =>
          if isCraftable && gtb craftCost 0 then
            let itemPrice := inject_Z (ItemForAnalysis.price item) in
            let profit := ((itemPrice - calculateAhTax itemPrice) - craftCost)%Q in
            if gtb profit CRAFT_PROFIT_THRESHOLD then
              Some (CraftingFlip.mk (ItemForAnalysis.id item)
                      (ItemForAnalysis.name item) (ItemForAnalysis.rarity item)
                      (ItemForAnalysis.price item) (Math_round craftCost)
                      (Math_round profit) recipeForDisplay)
            else None
          else None
      end
  end.

(** The variables of [fetchCraftingFlips] that its main loop updates, and
    the arguments [progressCallback] has been called with so far. *)
Record CraftRun : Type := mkCraftRun {
  processedCount : nat;
  reported : list Z;
  craftingFlips : list CraftingFlip.t
}.

Definition progressOf (processedCount total : nat) : Z :=
  Math_round (inject_Z (Z.of_nat processedCount) / inject_Z (Z.of_nat total) * 100).

Definition craftStep (bazaarPrices : Map MaterialInfo) (total : nat)
    (run : CraftRun) (item : ItemForAnalysis.t) : CraftRun :=
  let recipeIngredients := analyzeCraftingRecipe (ItemForAnalysis.name item) in
  let count := S (processedCount run) in
  mkCraftRun count
    (reported run ++ [progressOf count total])
    (pushFlip (craftingFlips run)
       (craftingFlipOf bazaarPrices item recipeIngredients)).

Definition craftLoop (bazaarPrices : Map MaterialInfo)
    (itemsToAnalyze : list ItemForAnalysis.t) : CraftRun :=
  fold_left (craftStep bazaarPrices (length itemsToAnalyze)) itemsToAnalyze
            (mkCraftRun 0 [] []).

(** The progress log and the outcome of the call. *)
Definition fetchCraftingFlips (response : BazaarResponse)
    (itemsToAnalyze : list ItemForAnalysis.t)
  : list Z * Outcome (list CraftingFlip.t) :=
  match fetchBazaarPrices response with
  | Rejected message => ([], Rejected message)
  | Resolved bazaarPrices =>
      let run := craftLoop bazaarPrices itemsToAnalyze in
      (reported run, Resolved (craftingFlips run))
  end.



(** *** fetchAllAuctionPages *)

Definition chunkSize : nat := 5.

(** The body of [pagesData.forEach]: a page that failed to load is [null],
    a page that loaded may still report [success: false]. *)
Definition concatPage (allAuctions : list RawAuction) (page : option AuctionPage.t)
  : list RawAuction :=
  match page with
  | Some data =>
      if AuctionPage.success data then allAuctions ++ AuctionPage.auctions data
      else allAuctions
  | None => allAuctions
  end.

(** The loop [for (let i = 1; i < totalPages; i += chunkSize)], entered at
    [i]: one chunk of pages is requested, awaited in request order and
    appended. *)
Equations? pagesLoop (fetchPage : nat -> option AuctionPage.t)
    (totalPages i : nat) (allAuctions : list RawAuction)
  : list RawAuction by wf (totalPages - i)%nat lt :=
pagesLoop fetchPage totalPages i allAuctions with lt_dec i totalPages := {
  | left _ =>
      let chunkEnd := Nat.min (i + chunkSize) totalPages in
      let pagesData := map fetchPage (seq i (chunkEnd - i)) in
      pagesLoop fetchPage totalPages (i + chunkSize)%nat
                (fold_left concatPage pagesData allAuctions);
  | right _ => allAuctions }.
Proof. unfold chunkSize. lia. Qed.

Definition fetchAllAuctionPages (firstPageResponse : PageResponse.t)
    (fetchPage : nat -> option AuctionPage.t) (maxPages : nat)
  : Outcome (list RawAuction) :=
  if negb (PageResponse.ok firstPageResponse) then
    Rejected (lit "Hypixel API error: " ++ PageResponse.statusText firstPageResponse)
  else
    let firstPageData := PageResponse.json firstPageResponse in
    if negb (AuctionPage.success firstPageData) then
      Rejected (orDefault (AuctionPage.cause firstPageData)
                          (lit "Failed to fetch auctions."))
    else
      let totalPages := Nat.min (AuctionPage.totalPages firstPageData) maxPages in
      Resolved (pagesLoop fetchPage totalPages 1
                          (AuctionPage.auctions firstPageData)).

(** *** fetchItemsForAnalysis *)

(** The body of [activeBins.forEach]: the lowest BIN seen so far for each
    normalized name; a later listing replaces it only when strictly
    cheaper. *)
Definition keepLowestBin (itemMap : Map RawAuction) (auction : RawAuction)
  : Map RawAuction :=
  let normalizedName := normalizeAuctionName (item_name auction) in
  match get itemMap normalizedName with
  | Some existing =>
      if starting_bid auction <? starting_bid existing
      then set itemMap normalizedName auction
      else itemMap
  | None => set itemMap normalizedName auction
  end.

Definition isHighRarity (rarity : Rarity) : bool :=
  match rarity with
  | EPIC | LEGENDARY | MYTHIC => true
  | _ => false
  end.

Definition isInteresting (auc : RawAuction) : bool :=
  let hasLore := (50 <? length (item_lore auc))%nat in
  let isDecentPrice := 250000 <? starting_bid auc in
  isHighRarity (tier auc) && hasLore && isDecentPrice.

(** [candidates.sort((a, b) => b.starting_bid - a.starting_bid)]: the stable
    descending arrangement. *)
Fixpoint insertByBidDescending (a : RawAuction) (sorted : list RawAuction)
  : list RawAuction :=
  match sorted with
  | [] => [a]
  | b :: r =>
      if starting_bid b <=? starting_bid a then a :: b :: r
      else b :: insertByBidDescending a r
  end.

Definition sortByBidDescending (candidates : list RawAuction) : list RawAuction :=
  fold_right insertByBidDescending [] candidates.

Definition toItemForAnalysis (auc : RawAuction) : ItemForAnalysis.t :=
  ItemForAnalysis.mk (uuid auc) (normalizeAuctionName (item_name auc))
                     (item_lore auc) (tier auc) (starting_bid auc).

(** What [fetchItemsForAnalysis] computes from the auctions it fetched. *)
Definition itemsForAnalysisOf (allAuctions : list RawAuction) (maxItems : nat)
  : list ItemForAnalysis.t :=
  let activeBins := filter isActiveBin allAuctions in
  let itemMap := fold_left keepLowestBin activeBins [] in
  let candidates := filter isInteresting (values itemMap) in
  let sortedCandidates := sortByBidDescending candidates in
  map toItemForAnalysis (firstn maxItems sortedCandidates).

Definition fetchItemsForAnalysis (firstPageResponse : PageResponse.t)
    (fetchPage : nat -> option AuctionPage.t) (maxItems : nat)
  : Outcome (list ItemForAnalysis.t) :=
  match fetchAllAuctionPages firstPageResponse fetchPage 10 with
  | Rejected message => Rejected message
  | Resolved allAuctions => Resolved (itemsForAnalysisOf allAuctions maxItems)
  end.

End Service.

(* ===================================================================== *)
(** ** components/AuctionFlips.tsx: the sortable table *)
(* ===================================================================== *)

Module AuctionFlipsView.

(** [SortableAuctionKeys]: the numeric columns. *)
Inductive SortableAuctionKeys : Type := lowestBin | marketPrice | profit.

Inductive Direction : Type := ascending | descending.

Record SortConfig : Type := mkSortConfig {
  key : SortableAuctionKeys;
  direction : Direction
}.

Definition key_eqb (a b : SortableAuctionKeys) : bool :=
  match a, b with
  | lowestBin, lowestBin | marketPrice, marketPrice | profit, profit => true
  | _, _ => false
  end.

Definition isAscending (d : Direction) : bool :=
  match d with ascending => true | descending => false end.

(** [flip[key]]. *)
Definition read (k : SortableAuctionKeys) (flip : AuctionFlip.t) : Z :=
  match k with
  | lowestBin => AuctionFlip.lowestBin flip
  | marketPrice => AuctionFlip.marketPrice flip
  | profit => AuctionFlip.profit flip
  end.

(** The state [useState] starts from. *)
Definition initialSortConfig : option SortConfig :=
  Some (mkSortConfig profit descending).

(** [requestSort], as the next value of [sortConfig]. *)
Definition requestSort (sortConfig : option SortConfig) (k : SortableAuctionKeys)
  : option SortConfig :=
  let dir :=
    match sortConfig with
    | Some c =>
        if key_eqb (key c) k && isAscending (direction c) then descending
        else ascending
    | None => ascending
    end in
  Some (mkSortConfig k dir).

(** The comparator handed to [sort]. *)
Definition compareFlips (c : SortConfig) (a b : AuctionFlip.t) : Z :=
  if read (key c) a <? read (key c) b then
    match direction c with ascending => -1 | descending => 1 end
  else if read (key c) b <? read (key c) a then
    match direction c with ascending => 1 | descending => -1 end
  else 0.

(** [sortableItems.sort(compare)] for a comparator that orders its
    arguments consistently, as the one above does: the stable arrangement,
    where [a] stays before [b] unless [compare(a, b) > 0]. *)
Fixpoint insertWith {A} (compare : A -> A -> Z) (x : A) (sorted : list A) : list A :=
  match sorted with
  | [] => [x]
  | y :: r =>
      if compare x y <=? 0 then x :: y :: r else y :: insertWith compare x r
  end.

Definition sortWith {A} (compare : A -> A -> Z) (l : list A) : list A :=
  fold_right (insertWith compare) [] l.

Definition sortedFlips (flips : list AuctionFlip.t) (sortConfig : option SortConfig)
  : list AuctionFlip.t :=
  match sortConfig with
  | Some c => sortWith (compareFlips c) flips
  | None => flips
  end.

End AuctionFlipsView.

(* ===================================================================== *)
(** ** components/MarketTrends.tsx and analyzeItemValue *)
(* ===================================================================== *)

Module MarketTrendsView.

(** geminiService.ts: [AIAnalysis]. *)
Record AIAnalysis : Type := mkAIAnalysis {
  estimatedValue : Z;
  potentialProfit : Z;
  reasoning : jsstring
}.

(** The answer of the model once parsed, before rounding. *)
Record ParsedAnalysis : Type := mkParsedAnalysis {
  parsedEstimatedValue : Q;
  parsedPotentialProfit : Q;
  parsedReasoning : jsstring
}.

(** [analyzeItemValue], given what the request and the parsing gave:
    [None] stands for any exception caught by its [catch]. *)
Definition analyzeItemValue (parsed : option ParsedAnalysis) : AIAnalysis :=
  match parsed with
  | Some parsedJson =>
      mkAIAnalysis (Math_round (parsedEstimatedValue parsedJson))
                   (Math_round (parsedPotentialProfit parsedJson))
                   (parsedReasoning parsedJson)
  | None => mkAIAnalysis 0 0 (lit "AI analysis failed for this item.")
  end.

Record MarketTrendFlip : Type := mkMarketTrendFlip {
  id : jsstring;
  itemName : jsstring;
  rarity : Rarity;
  lore : jsstring;
  currentPrice : Z;
  trendEstimatedValue : Z;
  trendPotentialProfit : Z;
  trendReasoning : jsstring
}.

Definition trendOf (model : ItemForAnalysis.t -> option ParsedAnalysis)
    (item : ItemForAnalysis.t) : MarketTrendFlip :=
  let analysis := analyzeItemValue (model item) in
  mkMarketTrendFlip (ItemForAnalysis.id item) (ItemForAnalysis.name item)
    (ItemForAnalysis.rarity item) (ItemForAnalysis.lore item)
    (ItemForAnalysis.price item)
    (estimatedValue analysis) (potentialProfit analysis) (reasoning analysis).

Definition isProfitable (t : MarketTrendFlip) : bool :=
  (10000 <? trendPotentialProfit t) && (0 <? trendEstimatedValue t).

(** The trends [fetchTrends] stores: [Promise.all] keeps the order of the
    items whatever the order in which the analyses complete. *)
Definition profitableTrends (model : ItemForAnalysis.t -> option ParsedAnalysis)
    (itemsToAnalyze : list ItemForAnalysis.t) : list MarketTrendFlip :=
  filter isProfitable (map (trendOf model) itemsToAnalyze).

End MarketTrendsView.

(* ===================================================================== *)
(** ** components/ui/LoreParser.tsx *)
(* ===================================================================== *)

Module LoreParser.

Definition colorMap (code : Z) : option jsstring :=
  if code =? 48 then Some (lit "text-black")
  else if code =? 49 then Some (lit "text-blue-900")
  else if code =? 50 then Some (lit "text-green-700")
  else if code =? 51 then Some (lit "text-cyan-700")
  else if code =? 52 then Some (lit "text-red-700")
  else if code =? 53 then Some (lit "text-purple-700")
  else if code =? 54 then Some (lit "text-gold")
  else if code =? 55 then Some (lit "text-gray-400")
  else if code =? 56 then Some (lit "text-gray-500")
  else if code =? 57 then Some (lit "text-blue-400")
  else if code =? 97 then Some (lit "text-green-400")
  else if code =? 98 then Some (lit "text-cyan-300")
  else if code =? 99 then Some (lit "text-red-500")
  else if code =? 100 then Some (lit "text-pink-400")
  else if code =? 101 then Some (lit "text-yellow-300")
  else if code =? 102 then Some (lit "text-white")
  else None.

(** The keys l, m, n, o. *)
Definition styleMap (code : Z) : bool :=
  (code =? 108) || (code =? 109) || (code =? 110) || (code =? 111).

Record Styles : Type := mkStyles {
  color : jsstring;
  bold : bool;
  italic : bool;
  underline : bool;
  strikethrough : bool
}.

Record Segment : Type := mkSegment {
  text : jsstring;
  classes : list jsstring
}.

Definition defaultStyles : Styles :=
  mkStyles (lit "text-gray-400") false false false false.

(** The styles after the code that opens a part; a part may be empty, and
    then has no code. *)
Definition applyCode (currentStyles : Styles) (code : option Z) : Styles :=
  match code with
  | None => currentStyles
  | Some c =>
      match colorMap c with
      | Some newColor => mkStyles newColor false false false false
      | None =>
          if styleMap c then
            mkStyles (color currentStyles)
                     (if c =? 108 then true else bold currentStyles)
                     (if c =? 111 then true else italic currentStyles)
                     (if c =? 110 then true else underline currentStyles)
                     (if c =? 109 then true else strikethrough currentStyles)
          else if c =? 114 then defaultStyles
          else currentStyles
      end
  end.

Definition classesOf (currentStyles : Styles) : list jsstring :=
  [color currentStyles]
  ++ (if bold currentStyles then [lit "font-bold"] else [])
  ++ (if italic currentStyles then [lit "italic"] else [])
  ++ (if underline currentStyles then [lit "underline"] else [])
  ++ (if strikethrough currentStyles then [lit "line-through"] else []).

(** The body of [parts.forEach], on the styles and the segments so far. *)
Definition parsePart (state : Styles * list Segment) (part : jsstring)
  : Styles * list Segment :=
  let (currentStyles, segments) := state in
  let code := hd_error part in
  let partText := skipn 1 part in
  let newStyles := applyCode currentStyles code in
  match partText with
  | [] => (newStyles, segments)
  | _ :: _ => (newStyles, segments ++ [mkSegment partText (classesOf newStyles)])
  end.

(** The segments of one line that is not blank. *)
Definition parseLine (line : jsstring) : list Segment :=
  match split SECTION_SIGN line with
  | [] => []
  | firstPartText :: parts =>
      let segments :=
        match firstPartText with
        | [] => []
        | _ :: _ => [mkSegment firstPartText [color defaultStyles]]
        end in
      snd (fold_left parsePart parts (defaultStyles, segments))
  end.

(** What one line renders to: a spacer for a blank line, else a paragraph
    of segments. *)
Inductive Line : Type :=
| Spacer
| Paragraph (segments : list Segment).

Definition renderLine (line : jsstring) : Line :=
  match trim line with
  | [] => Spacer
  | _ :: _ => Paragraph (parseLine line)
  end.

(** [parsedLore]: [None] for an empty lore. *)
Definition parsedLore (lore : jsstring) : option (list Line) :=
  match lore with
  | [] => None
  | _ :: _ => Some (map renderLine (split 10 lore))
  end.


End LoreParser.

(* ===================================================================== *)
(** ** Vocabulary of the properties *)
(* ===================================================================== *)

(** The quote [fetchBazaarPrices] stores for a product, if any. *)
Definition quoteOf (toLowerCase toUpperCase : jsstring -> jsstring)
    (product : Product) : option MaterialInfo :=
  match quick_status product with
  | Some status =>
      if gtb (QuickStatus.sellPrice status) 0
      then Some (mkMaterialInfo (QuickStatus.sellPrice status)
                   (formatItemName toLowerCase toUpperCase (product_id product)))
      else None
  | None => None
  end.

(** What page [j] of the feed contributes: its auctions when it loaded
    and reports success, nothing otherwise. *)
Definition pageAuctions (fetchPage : nat -> option AuctionPage.t) (j : nat)
  : list RawAuction :=
  match fetchPage j with
  | Some data => if AuctionPage.success data then AuctionPage.auctions data else []
  | None => []
  end.

(** Prices never increase along the list. *)
Definition descendingPrices (items : list ItemForAnalysis.t) : Prop :=
  forall i j x y, (i <= j)%nat ->
    nth_error items i = Some x -> nth_error items j = Some y ->
    ItemForAnalysis.price y <= ItemForAnalysis.price x.

(** What the map of [fetchItemsForAnalysis] holds once the listings [seen]
    have been read: distinct keys, and under each key the cheapest listing
    seen with that normalized name. *)
Definition lowestBins (m : Map RawAuction) (seen : list RawAuction) : Prop :=
  NoDup (map fst m) /\
  forall k,
    match get m k with
    | Some e =>
        In e seen /\ normalizeAuctionName (item_name e) = k /\
        forall a, In a seen -> normalizeAuctionName (item_name a) = k ->
                  starting_bid e <= starting_bid a
    | None =>
        forall a, In a seen -> normalizeAuctionName (item_name a) <> k
    end.


(** The order of two rows that a sort configuration asks for. *)
Definition inOrder (c : AuctionFlipsView.SortConfig) (x y : AuctionFlip.t) : Prop :=
  match AuctionFlipsView.direction c with
  | AuctionFlipsView.ascending =>
      AuctionFlipsView.read (AuctionFlipsView.key c) x
      <= AuctionFlipsView.read (AuctionFlipsView.key c) y
  | AuctionFlipsView.descending =>
      AuctionFlipsView.read (AuctionFlipsView.key c) y
      <= AuctionFlipsView.read (AuctionFlipsView.key c) x
  end.

(** A raw name seen as markup around a core: formatting escapes (the
    section sign and one code character) anywhere, and runs of affix
    characters before and after the core. *)
Inductive Piece : Type :=
| Escape (code : Z)
| Plain (c : Z).

Definition renderPiece (p : Piece) : jsstring :=
  match p with
  | Escape code => [SECTION_SIGN; code]
  | Plain c => [c]
  end.

Definition plainOfPiece (p : Piece) : jsstring :=
  match p with
  | Escape _ => []
  | Plain c => [c]
  end.

Definition render (ps : list Piece) : jsstring := flat_map renderPiece ps.
Definition plainText (ps : list Piece) : jsstring := flat_map plainOfPiece ps.

Definition wellFormedPiece (p : Piece) : bool :=
  match p with
  | Escape code => isColorCode code
  | Plain c => negb (c =? SECTION_SIGN)
  end.

(** A core neither starts nor ends with an affix character. *)
Definition bare (core : jsstring) : bool :=
  match core with
  | [] => true
  | c :: _ => negb (isAffix c) && negb (isAffix (last core c))
  end.

Definition decorates (core raw : jsstring) : Prop :=
  exists ps prefix suffix,
    raw = render ps /\
    forallb wellFormedPiece ps = true /\
    plainText ps = prefix ++ core ++ suffix /\
    forallb isAffix prefix = true /\
    forallb isAffix suffix = true /\
    bare core = true.

Definition bidLe (a b : RawAuction) : Prop := starting_bid a <= starting_bid b.

(** Sorted ascending by price: each listing costs no more than the next. *)
Definition ascending (l : list RawAuction) : Prop := Sorted bidLe l.




(** Every member of a group is one of the listings grouped and carries the
    group's key as its normalized name. *)
Definition wellGrouped (P : RawAuction -> Prop) (m : Map (list RawAuction)) : Prop :=
  forall k members a,
    In (k, members) m -> In a members ->
    P a /\ normalizeAuctionName (item_name a) = k.

(** The total ingredient cost as the pipeline's contract words it: the sum
    over the ingredients of unit price times quantity (an ingredient
    without a quote has no term). *)
Fixpoint ingredientsCost (bazaarPrices : Map MaterialInfo)
    (recipe : list RecipeIngredient) : Q :=
  match recipe with
  | [] => 0
  | ingredient :: rest =>
      match get bazaarPrices (ingredientId ingredient) with
      | Some materialInfo => price materialInfo * quantity ingredient
      | None => 0
      end + ingredientsCost bazaarPrices rest
  end.

Definition quoted (bazaarPrices : Map MaterialInfo) (ingredient : RecipeIngredient)
  : Prop :=
  get bazaarPrices (ingredientId ingredient) <> None.


(* ===================================================================== *)
(** ** Concrete inputs *)
(* ===================================================================== *)

Module Examples.

Definition listing (rawName : jsstring) (bid : Z) : RawAuction :=
  mkRawAuction (lit "uuid") rawName LEGENDARY bid true false (lit "lore").

Definition hyperions (bids : list Z) : list RawAuction :=
  map (listing (lit "Hyperion")) bids.

Definition wallGroup : list RawAuction := hyperions [100; 105; 110; 500].
Definition pairGroup : list RawAuction := hyperions [100; 150].
Definition outlierGroup : list RawAuction :=
  hyperions [100; 105; 110; 500; 501; 502; 503; 504; 100000].

Definition noRecipe : jsstring -> list RecipeIngredient := fun _ => [].

Definition sameCase : jsstring -> jsstring := fun s => s.

Definition candidate (resale : Z) : ItemForAnalysis.t :=
  ItemForAnalysis.mk (lit "uuid") (lit "Hyperion") (lit "lore") LEGENDARY resale.




Definition quote : jsstring * Product :=
  (lit "ENCHANTED_DIAMOND",
   mkProduct (lit "ENCHANTED_DIAMOND")
             (Some (QuickStatus.mk 2500 (27005 # 10) 120000 90000))).

Definition snapshot : BazaarResponse :=
  mkBazaarResponse true (mkBazaarData true None [quote]).

Definition longLore : jsstring := repeat 97 60.

Definition epic (rawName : jsstring) (bid : Z) : RawAuction :=
  mkRawAuction (lit "uuid") rawName EPIC bid true false longLore.

(** A feed of three pages: the first and the third load, the second
    fails. *)
Definition firstPage : PageResponse.t :=
  PageResponse.mk true (lit "OK")
    (AuctionPage.mk true None
       [epic (lit "§6✪ Hyperion") 900000; epic (lit "Hyperion") 800000] 3).

Definition laterPages (j : nat) : option AuctionPage.t :=
  match j with
  | 2%nat => Some (AuctionPage.mk true None [epic (lit "Terminator") 700000] 3)
  | _ => None
  end.

Definition sampleFlip (bid market gain : Z) : AuctionFlip.t :=
  AuctionFlip.mk (lit "uuid") (lit "Hyperion") LEGENDARY (lit "lore")
                 bid market gain.

Definition failingModel : ItemForAnalysis.t -> option MarketTrendsView.ParsedAnalysis :=
  fun _ => None.

End Examples.

Import Examples.

(* ===================================================================== *)
(** ** Properties *)
(* ===================================================================== *)

Section Properties.

Variable toLowerCase : jsstring -> jsstring.
Variable toUpperCase : jsstring -> jsstring.
Variable analyzeCraftingRecipe : jsstring -> list RecipeIngredient.

(** *** Numbers *)

Lemma gtb_true (x y : Q) : gtb x y = true <-> (y < x)%Q.
Proof.
  unfold gtb. rewrite Qgt_alt. destruct (x ?= y)%Q; split; congruence.
Qed.

Lemma gtb_false (x y : Q) : gtb x y = false <-> (x <= y)%Q.
Proof.
  unfold gtb. rewrite Qle_alt. destruct (x ?= y)%Q; split; congruence.
Qed.

(** *** Ascending price groups *)

Lemma bidLe_trans : Relations_1.Transitive bidLe.
Proof. intros a b c; unfold bidLe; lia. Qed.

Lemma ascending_strong l : ascending l -> StronglySorted bidLe l.
Proof. apply Sorted_StronglySorted, bidLe_trans. Qed.

Lemma ascending_tail a l : ascending (a :: l) -> ascending l.
Proof. intros H; inversion H; assumption. Qed.

Lemma strong_nth l :
  StronglySorted bidLe l ->
  forall i j a b, (i <= j)%nat ->
    nth_error l i = Some a -> nth_error l j = Some b -> bidLe a b.
Proof.
  induction 1 as [|x l Hs IH Hall]; intros i j a b Hij Ha Hb.
  - destruct i; discriminate.
  - destruct i as [|i]; destruct j as [|j]; simpl in *; try lia.
    + inversion Ha; inversion Hb; subst; unfold bidLe; lia.
    + inversion Ha; subst. rewrite Forall_forall in Hall.
      apply Hall. eapply nth_error_In; eassumption.
    + eapply IH; [|eassumption|eassumption]. lia.
Qed.

Lemma nth_map_bid l i a :
  nth_error l i = Some a -> nth i (map starting_bid l) 0 = starting_bid a.
Proof.
  revert i; induction l as [|x l IH]; intros [|i] H; simpl in *; try discriminate.
  - inversion H; reflexivity.
  - auto.
Qed.

Lemma nth_error_some_lt {A} (l : list A) i :
  (i < length l)%nat -> exists a, nth_error l i = Some a.
Proof.
  intros H. destruct (nth_error l i) eqn:E; eauto.
  apply nth_error_None in E. lia.
Qed.

(** *** Quartiles and trimming *)

Lemma quartile_indices_in_range (prices : list Z) :
  (1 <= length prices)%nat ->
  (q1IndexOf prices <= q3IndexOf prices)%nat /\
  (q3IndexOf prices < length prices)%nat.
Proof.
  unfold q1IndexOf, q3IndexOf. intros H.
  assert (length prices / 4 <= length prices * 3 / 4)%nat
    by (apply Nat.Div0.div_le_mono; lia).
  assert (length prices * 3 / 4 < length prices)%nat
    by (apply Nat.Div0.div_lt_upper_bound; lia).
  lia.
Qed.

Lemma third_quartile_at_least_one (prices : list Z) :
  (2 <= length prices)%nat -> (1 <= q3IndexOf prices)%nat.
Proof.
  unfold q3IndexOf. intros H.
  apply Nat.div_le_lower_bound; lia.
Qed.

Lemma upperBound_above_q3 (candidates : list RawAuction) :
  (1 <= length candidates)%nat -> ascending candidates ->
  exists q3a,
    nth_error candidates (q3IndexOf (map starting_bid candidates)) = Some q3a /\
    starting_bid q3a <= upperBoundOf (map starting_bid candidates).
Proof.
  intros Hlen Hasc.
  pose proof (quartile_indices_in_range (map starting_bid candidates)) as Hq.
  rewrite length_map in Hq. destruct (Hq Hlen) as [H13 H3].
  destruct (nth_error_some_lt candidates _ H3) as [q3a E3].
  assert (H1 : (q1IndexOf (map starting_bid candidates) < length candidates)%nat) by lia.
  destruct (nth_error_some_lt candidates _ H1) as [q1a E1].
  exists q3a. split; [exact E3|].
  unfold upperBoundOf.
  rewrite (nth_map_bid _ _ _ E1), (nth_map_bid _ _ _ E3).
  pose proof (strong_nth _ (ascending_strong _ Hasc) _ _ _ _ H13 E1 E3) as Hle.
  unfold bidLe in Hle. lia.
Qed.

(** Trimming an ascending list at a bound that admits position [k] keeps
    the first [k + 1] listings, in place. *)
Lemma filter_keeps_prefix (ub : Z) (l : list RawAuction) :
  StronglySorted bidLe l ->
  forall k a, nth_error l k = Some a -> starting_bid a <= ub ->
    firstn (S k) (filter (fun c => starting_bid c <=? ub) l) = firstn (S k) l.
Proof.
  induction 1 as [|x l Hs IH Hall]; intros k a Hk Hub.
  - destruct k; discriminate.
  - assert (Hx : starting_bid x <= ub).
    { destruct k as [|k]; simpl in Hk.
      - inversion Hk; subst; assumption.
      - rewrite Forall_forall in Hall.
        pose proof (Hall a (nth_error_In _ _ Hk)) as Hxa.
        unfold bidLe in Hxa. lia. }
    cbn [filter]. apply Z.leb_le in Hx. rewrite Hx.
    destruct k as [|k]; [reflexivity|].
    simpl in Hk. cbn [firstn]. f_equal.
    eapply IH; eassumption.
Qed.

(** Trimming an ascending list at any bound keeps a prefix of it. *)
Lemma filter_is_prefix (ub : Z) (l : list RawAuction) :
  StronglySorted bidLe l ->
  filter (fun c => starting_bid c <=? ub) l
  = firstn (length (filter (fun c => starting_bid c <=? ub) l)) l.
Proof.
  induction 1 as [|x l Hs IH Hall]; [reflexivity|].
  cbn [filter]. destruct (starting_bid x <=? ub) eqn:E.
  - cbn [length firstn]. f_equal. exact IH.
  - apply Z.leb_gt in E.
    assert (Hnil : filter (fun c => starting_bid c <=? ub) l = []).
    { rewrite Forall_forall in Hall.
      destruct (filter _ l) as [|y r] eqn:F; [reflexivity|].
      assert (Hy : In y (filter (fun c => starting_bid c <=? ub) l))
        by (rewrite F; left; reflexivity).
      apply filter_In in Hy. destruct Hy as [Hy1 Hy2].
      apply Z.leb_le in Hy2. pose proof (Hall y Hy1) as Hxy.
      unfold bidLe in Hxy. lia. }
    rewrite Hnil. reflexivity.
Qed.


Lemma trimming_keeps_through_q3 (candidates : list RawAuction) :
  (1 <= length candidates)%nat -> ascending candidates ->
  let prices := map starting_bid candidates in
  let kept := filter (fun c => starting_bid c <=? upperBoundOf prices) candidates in
  firstn (S (q3IndexOf prices)) kept = firstn (S (q3IndexOf prices)) candidates /\
  (S (q3IndexOf prices) <= length kept)%nat.
Proof.
  intros Hlen Hasc prices kept.
  destruct (upperBound_above_q3 candidates Hlen Hasc) as [q3a [E3 Hub]].
  pose proof (filter_keeps_prefix (upperBoundOf prices) candidates
                (ascending_strong _ Hasc) _ _ E3 Hub) as Hpre.
  split; [exact Hpre|].
  assert (Hl : length (firstn (S (q3IndexOf prices)) kept)
               = length (firstn (S (q3IndexOf prices)) candidates))
    by exact (f_equal (@length RawAuction) Hpre).
  rewrite !length_firstn in Hl.
  assert (Hin : (q3IndexOf prices < length candidates)%nat)
    by (apply nth_error_Some; unfold prices; rewrite E3; discriminate).
  lia.
Qed.


(** *** The wall loop *)





Lemma findWall_pair a b r i :
  findWall (a :: b :: r) i
  = if (0 <? starting_bid a)
       && gtb (gap (starting_bid a) (starting_bid b)) GAP_THRESHOLD
    then Some (i + 1)%nat
    else findWall (b :: r) (i + 1)%nat.
Proof. reflexivity. Qed.

Lemma findWall_range (l : list RawAuction) :
  forall i w, findWall l i = Some w -> (i < w)%nat /\ (w < i + length l)%nat.
Proof.
  induction l as [|a l IH]; intros i w H; [discriminate|].
  destruct l as [|b r]; [discriminate|].
  rewrite findWall_pair in H.
  destruct ((0 <? starting_bid a)
            && gtb (gap (starting_bid a) (starting_bid b)) GAP_THRESHOLD).
  - inversion H; subst. cbn [length]. lia.
  - apply IH in H. cbn [length] in *. lia.
Qed.



(** *** The estimator on groups of three or more *)

(** Once the candidates are ascending, a group of at least three listings
    is decided by the wall loop over the trimmed candidates. *)
Lemma estimator_wall_stage (sortedAuctions : list RawAuction) :
  (3 <= length sortedAuctions)%nat ->
  ascending (marketCandidatesOf sortedAuctions) ->
  let trimmed := filteredCandidatesOf sortedAuctions in
  (2 <= length trimmed)%nat /\
  findMarketPriceAuction_at sortedAuctions
  = match findWall trimmed 0 with
    | Some wallStartIndex => (AfterJump, nth_error trimmed wallStartIndex)
    | None => (NoJump, nth_error trimmed 0)
    end.
Proof.
  intros Hlen Hasc trimmed.
  assert (Hc : (2 <= length (marketCandidatesOf sortedAuctions))%nat)
    by (unfold marketCandidatesOf; rewrite length_skipn; lia).
  pose proof (quartile_indices_in_range
                (map starting_bid (marketCandidatesOf sortedAuctions))) as Hq.
  pose proof (third_quartile_at_least_one
                (map starting_bid (marketCandidatesOf sortedAuctions))) as Hq3.
  rewrite length_map in Hq, Hq3.
  destruct (Hq ltac:(lia)) as [H13 H3]. specialize (Hq3 Hc).
  destruct (trimming_keeps_through_q3 (marketCandidatesOf sortedAuctions)
              ltac:(lia) Hasc) as [_ Hkept].
  assert (Ht : (2 <= length trimmed)%nat)
    by (unfold trimmed, filteredCandidatesOf; lia).
  split; [exact Ht|].
  unfold findMarketPriceAuction_at.
  replace (length sortedAuctions <? 3)%nat with false
    by (symmetry; apply Nat.ltb_ge; lia).
  rewrite length_map.
  replace (length (marketCandidatesOf sortedAuctions)
           <=? q1IndexOf (map starting_bid (marketCandidatesOf sortedAuctions)))%nat
    with false by (symmetry; apply Nat.leb_gt; lia).
  replace (length (marketCandidatesOf sortedAuctions)
           <=? q3IndexOf (map starting_bid (marketCandidatesOf sortedAuctions)))%nat
    with false by (symmetry; apply Nat.leb_gt; lia).
  cbn [orb]. fold trimmed.
  replace (length trimmed <? 2)%nat with false
    by (symmetry; apply Nat.ltb_ge; lia).
  reflexivity.
Qed.

Lemma ascending_candidates (sortedAuctions : list RawAuction) :
  ascending sortedAuctions -> ascending (marketCandidatesOf sortedAuctions).
Proof.
  unfold marketCandidatesOf. destruct sortedAuctions as [|a l]; simpl.
  - intros _; constructor.
  - apply ascending_tail.
Qed.


(** C10.  For an ascending candidate list of length n >= 2 (the candidates
    of any group of at least three listings), the quartile indices
    floor(n/4) and floor(3n/4) are below n, the trimming keeps at least the
    floor(3n/4)+1 cheapest candidates, in place, and that is at least 2; so
    the estimator leaves neither through the "not enough data for IQR"
    return nor through the "filtering too aggressive" return. *)
Theorem iqr_fallbacks_unreachable :
  forall candidates : list RawAuction,
    (2 <= length candidates)%nat -> ascending candidates ->
    let n := length candidates in
    let prices := map starting_bid candidates in
    let kept :=
      filter (fun c => starting_bid c <=? upperBoundOf prices) candidates in
    q1IndexOf prices = (n / 4)%nat /\
    q3IndexOf prices = (3 * n / 4)%nat /\
    (n / 4 < n)%nat /\
    (3 * n / 4 < n)%nat /\
    firstn (3 * n / 4 + 1) kept = firstn (3 * n / 4 + 1) candidates /\
    (3 * n / 4 + 1 <= length kept)%nat /\
    (2 <= 3 * n / 4 + 1)%nat /\
    forall cheapest : RawAuction,
      let site := fst (findMarketPriceAuction_at (cheapest :: candidates)) in
      site <> NotEnoughDataForIQR /\ site <> FilteringTooAggressive /\
      (site = AfterJump \/ site = NoJump).
Proof.
  intros candidates Hlen Hasc n prices kept.
  assert (E1 : q1IndexOf prices = (n / 4)%nat)
    by (unfold q1IndexOf, prices; rewrite length_map; reflexivity).
  assert (E3 : q3IndexOf prices = (3 * n / 4)%nat)
    by (unfold q3IndexOf, prices; rewrite length_map, Nat.mul_comm; reflexivity).
  pose proof (quartile_indices_in_range prices) as Hq.
  pose proof (third_quartile_at_least_one prices) as Hq3.
  unfold prices in Hq, Hq3. rewrite length_map in Hq, Hq3. fold prices in Hq, Hq3.
  destruct (Hq ltac:(lia)) as [H13 H3]. specialize (Hq3 Hlen).
  destruct (trimming_keeps_through_q3 candidates ltac:(lia) Hasc) as [Hpre Hkept].
  fold prices in Hpre, Hkept. fold kept in Hpre, Hkept.
  rewrite E1, E3 in *. fold n in H3.
  replace (3 * n / 4 + 1)%nat with (S (3 * n / 4)) by lia.
  split; [reflexivity|]. split; [reflexivity|].
  split; [lia|]. split; [lia|].
  split; [exact Hpre|]. split; [exact Hkept|]. split; [lia|].
  intros cheapest site.
  assert (Hsite : site = AfterJump \/ site = NoJump).
  { unfold site.
    destruct (estimator_wall_stage (cheapest :: candidates)) as [_ Hat].
    - simpl; lia.
    - exact Hasc.
    - rewrite Hat.
      destruct (findWall (filteredCandidatesOf (cheapest :: candidates)) 0);
        simpl; auto. }
  destruct Hsite as [E | E]; rewrite E;
    (split; [discriminate|]); (split; [discriminate|]); auto.
Qed.

(** C4.  A group of fewer than three listings is estimated by its second
    listing when there is one and by nothing otherwise: two listings
    [a; b] (such as prices 100 and 150) give [b], one listing gives none;
    in an ascending group that second listing is the second-cheapest. *)
Theorem small_group_estimate :
  forall sortedAuctions : list RawAuction,
    (length sortedAuctions < 3)%nat ->
    findMarketPriceAuction sortedAuctions = nth_error sortedAuctions 1 /\
    (forall a b, sortedAuctions = [a; b] ->
                 findMarketPriceAuction sortedAuctions = Some b) /\
    (forall a, sortedAuctions = [a] ->
               findMarketPriceAuction sortedAuctions = None) /\
    (sortedAuctions = [] -> findMarketPriceAuction sortedAuctions = None) /\
    (ascending sortedAuctions ->
     forall estimate, findMarketPriceAuction sortedAuctions = Some estimate ->
       exists cheapest, sortedAuctions = [cheapest; estimate] /\
                        starting_bid cheapest <= starting_bid estimate).
Proof.
  intros sortedAuctions Hlen.
  assert (E : findMarketPriceAuction sortedAuctions = nth_error sortedAuctions 1).
  { unfold findMarketPriceAuction, findMarketPriceAuction_at.
    replace (length sortedAuctions <? 3)%nat with true
      by (symmetry; apply Nat.ltb_lt; exact Hlen).
    reflexivity. }
  split; [exact E|]. rewrite E.
  split; [intros a b ->; reflexivity|].
  split; [intros a ->; reflexivity|].
  split; [intros ->; reflexivity|].
  intros Hasc estimate Hest.
  destruct sortedAuctions as [|a [|b [|c r]]]; simpl in *; try discriminate; try lia.
  inversion Hest; subst. exists a. split; [reflexivity|].
  inversion Hasc as [|? ? _ Hhd]; subst. inversion Hhd; subst. assumption.
Qed.

(** C5.  For an ascending group of at least three listings the estimator
    returns a listing that is a member of the trimmed candidate list, at
    the same position as among all candidates; its price is at least the
    price of every candidate before it, and strictly below the price of
    every candidate that the trimming excluded.  (Positivity of the prices
    is not needed for this.) *)
Theorem estimate_in_trimmed_candidates :
  forall sortedAuctions : list RawAuction,
    (3 <= length sortedAuctions)%nat -> ascending sortedAuctions ->
    let candidates := marketCandidatesOf sortedAuctions in
    let trimmed := filteredCandidatesOf sortedAuctions in
    exists (estimate : RawAuction) (k : nat),
      findMarketPriceAuction sortedAuctions = Some estimate /\
      In estimate trimmed /\
      nth_error trimmed k = Some estimate /\
      nth_error candidates k = Some estimate /\
      (forall j c, (j < k)%nat -> nth_error candidates j = Some c ->
                   starting_bid c <= starting_bid estimate) /\
      (forall c, In c candidates -> ~ In c trimmed ->
                 starting_bid estimate < starting_bid c).
Proof.
  intros sortedAuctions Hlen Hasc candidates trimmed.
  pose proof (ascending_candidates _ Hasc) as Hc. fold candidates in Hc.
  destruct (estimator_wall_stage sortedAuctions Hlen Hc) as [Ht Hat].
  fold trimmed in Ht, Hat.
  set (k := match findWall trimmed 0 with Some w => w | None => 0%nat end).
  assert (Hk : (k < length trimmed)%nat).
  { unfold k. destruct (findWall trimmed 0) as [w|] eqn:W; [|lia].
    apply findWall_range in W. lia. }
  destruct (nth_error_some_lt trimmed k Hk) as [estimate He].
  assert (Hres : findMarketPriceAuction sortedAuctions = Some estimate).
  { unfold findMarketPriceAuction. rewrite Hat. unfold k in He.
    destruct (findWall trimmed 0); exact He. }
  assert (Hpre : trimmed = firstn (length trimmed) candidates)
    by (apply filter_is_prefix, ascending_strong, Hc).
  assert (Hcand : nth_error candidates k = Some estimate).
  { rewrite Hpre in He. rewrite nth_error_firstn in He.
    replace (k <? length trimmed)%nat with true in He
      by (symmetry; apply Nat.ltb_lt; exact Hk).
    exact He. }
  assert (Hin : In estimate trimmed) by (eapply nth_error_In; exact He).
  exists estimate, k. repeat split; try assumption.
  - intros j c Hj Hcj.
    apply (strong_nth candidates (ascending_strong _ Hc) j k c estimate);
      [lia | exact Hcj | exact Hcand].
  - intros c Hin_c Hout.
    unfold trimmed, filteredCandidatesOf in Hin, Hout. fold candidates in Hin, Hout.
    apply filter_In in Hin. destruct Hin as [_ Hle]. apply Z.leb_le in Hle.
    destruct (starting_bid c <=? upperBoundOf (map starting_bid candidates)) eqn:E.
    + exfalso. apply Hout. apply filter_In. split; assumption.
    + apply Z.leb_gt in E. lia.
Qed.



(** *** Tax *)

(** C3.  For a non-negative gross price the tax is exactly 0.01 times the
    price below 1,000,000 and exactly 0.02 times the price from 1,000,000
    on, the boundary included; the function does not round: at 999,999
    its value is 9,999.99, which differs from its rounding. *)
Theorem tax_schedule :
  forall grossPrice : Q,
    (0 <= grossPrice)%Q ->
    ((grossPrice < 1000000)%Q ->
       calculateAhTax grossPrice = (grossPrice * (1 # 100))%Q) /\
    ((1000000 <= grossPrice)%Q ->
       calculateAhTax grossPrice = (grossPrice * (2 # 100))%Q) /\
    (calculateAhTax 1000000 == 1000000 * (2 # 100))%Q /\
    (calculateAhTax 999999 == 999999 # 100)%Q /\
    ~ (calculateAhTax 999999 == inject_Z (Math_round (calculateAhTax 999999)))%Q.
Proof.
  intros grossPrice _. unfold calculateAhTax.
  split; [|split; [|split; [|split]]].
  - intros Hlt. destruct (Qle_bool 1000000 grossPrice) eqn:E; [|reflexivity].
    apply Qle_bool_iff in E. exfalso. apply (Qlt_not_le _ _ Hlt E).
  - intros Hge. apply Qle_bool_iff in Hge. rewrite Hge. reflexivity.
  - reflexivity.
  - reflexivity.
  - intros H. vm_compute in H. discriminate.
Qed.

(** *** Lists of flips *)

Lemma In_pushFlip {A} (flips : list A) (o : option A) (f : A) :
  In f (pushFlip flips o) <-> In f flips \/ o = Some f.
Proof.
  destruct o as [g|]; simpl.
  - rewrite in_app_iff. simpl. split.
    + intros [H|[H|[]]]; [left; exact H | right; congruence].
    + intros [H|H]; [left; exact H | right; left; congruence].
  - split; [auto | intros [H|H]; [exact H | discriminate]].
Qed.

Lemma In_pushed {A B} (g : B -> option A) (l : list B) :
  forall (acc : list A) (f : A),
    In f (fold_left (fun flips e => pushFlip flips (g e)) l acc)
    <-> In f acc \/ exists e, In e l /\ g e = Some f.
Proof.
  induction l as [|e l IH]; intros acc f; simpl.
  - split; [auto | intros [H|(e & [] & _)]; exact H].
  - rewrite IH, In_pushFlip. split.
    + intros [[H|H]|(e' & He' & Hg)].
      * left; exact H.
      * right; exists e; auto.
      * right; exists e'; auto.
    + intros [H|(e' & [->|He'] & Hg)].
      * left; left; exact H.
      * left; right; exact Hg.
      * right; exists e'; auto.
Qed.

(** *** Bazaar *)


(** *** Sorting a group *)

Lemma insertByBid_perm a l : Permutation (a :: l) (insertByBid a l).
Proof.
  induction l as [|b r IH]; simpl; [reflexivity|].
  destruct (starting_bid a <=? starting_bid b); [reflexivity|].
  rewrite perm_swap. apply perm_skip, IH.
Qed.

Lemma sortByBid_perm l : Permutation l (sortByBid l).
Proof.
  induction l as [|a l IH]; simpl; [constructor|].
  rewrite <- insertByBid_perm. apply perm_skip, IH.
Qed.

Lemma insertByBid_ascending a l : ascending l -> ascending (insertByBid a l).
Proof.
  unfold ascending. induction 1 as [|b r Hs IH Hhd]; simpl.
  - repeat constructor.
  - destruct (starting_bid a <=? starting_bid b) eqn:E.
    + apply Z.leb_le in E. repeat constructor; assumption.
    + apply Z.leb_gt in E. constructor; [exact IH|].
      destruct r as [|c r']; simpl.
      * constructor. unfold bidLe. lia.
      * destruct (starting_bid a <=? starting_bid c);
          constructor; unfold bidLe; [lia|].
        inversion Hhd; assumption.
Qed.

Lemma sortByBid_ascending l : ascending (sortByBid l).
Proof.
  induction l as [|a l IH]; simpl; [constructor|].
  apply insertByBid_ascending, IH.
Qed.

Lemma sortByBid_head_cheapest l buyAuction rest :
  sortByBid l = buyAuction :: rest ->
  forall a, In a l -> starting_bid buyAuction <= starting_bid a.
Proof.
  intros E a Ha.
  pose proof (ascending_strong _ (sortByBid_ascending l)) as Hs.
  rewrite E in Hs. inversion Hs as [|? ? _ Hall]; subst.
  apply (Permutation_in _ (sortByBid_perm l)) in Ha. rewrite E in Ha.
  destruct Ha as [->|Ha]; [lia|].
  rewrite Forall_forall in Hall. apply Hall, Ha.
Qed.

(** *** Grouping *)

Lemma jsstring_eqb_eq s t : jsstring_eqb s t = true -> s = t.
Proof.
  unfold jsstring_eqb. destruct (jsstring_eq_dec s t); [auto|discriminate].
Qed.

Lemma In_set {V} (m : Map V) k v k' v' :
  In (k', v') (set m k v) -> In (k', v') m \/ (k' = k /\ v' = v).
Proof.
  induction m as [|[k0 v0] r IH]; simpl.
  - intros [H|[]]. inversion H; auto.
  - destruct (jsstring_eqb k0 k) eqn:E; simpl.
    + intros [H|H]; [|auto].
      inversion H; subst. right. split; [apply jsstring_eqb_eq, E|reflexivity].
    + intros [H|H]; [auto|]. destruct (IH H); auto.
Qed.

Lemma get_In {V} (m : Map V) k v : get m k = Some v -> In (k, v) m.
Proof.
  induction m as [|[k0 v0] r IH]; simpl; [discriminate|].
  destruct (jsstring_eqb k0 k) eqn:E.
  - intros H; inversion H; subst. left.
    apply jsstring_eqb_eq in E. subst. reflexivity.
  - intros H; right; auto.
Qed.

Lemma addToGroup_wellGrouped P m auction :
  wellGrouped P m -> P auction -> wellGrouped P (addToGroup m auction).
Proof.
  intros Hm Ha. unfold addToGroup.
  set (key := normalizeAuctionName (item_name auction)).
  set (grouped := if has m key then m else set m key []).
  assert (Hg : wellGrouped P grouped).
  { unfold grouped. destruct (has m key); [exact Hm|].
    intros k members a Hin Hmem.
    apply In_set in Hin. destruct Hin as [Hin|[_ ->]]; [|contradiction].
    eapply Hm; eassumption. }
  destruct (get grouped key) as [members|] eqn:G; [|exact Hg].
  intros k ms a Hin Hmem.
  apply In_set in Hin. destruct Hin as [Hin|[-> ->]].
  - eapply Hg; eassumption.
  - apply in_app_or in Hmem. destruct Hmem as [Hmem|[<-|[]]].
    + eapply Hg; [apply get_In, G|exact Hmem].
    + split; [exact Ha|reflexivity].
Qed.

Lemma groupAuctions_wellGrouped activeBins :
  wellGrouped (fun a => In a activeBins) (groupAuctions activeBins).
Proof.
  unfold groupAuctions.
  assert (H : forall l m,
             (forall a, In a l -> In a activeBins) ->
             wellGrouped (fun a => In a activeBins) m ->
             wellGrouped (fun a => In a activeBins) (fold_left addToGroup l m)).
  { induction l as [|x l IH]; intros m Hl Hm; simpl; [exact Hm|].
    apply IH.
    - intros a Ha; apply Hl; right; exact Ha.
    - apply addToGroup_wellGrouped; [exact Hm|]. apply Hl; left; reflexivity. }
  apply H; [auto|]. intros k members a [].
Qed.


(** *** Auction flips *)



(** *** Crafting flips *)


Lemma priceRecipe_result bazaarPrices recipe :
  forall craftCost recipeForDisplay,
    ((exists ingredient, In ingredient recipe /\ ~ quoted bazaarPrices ingredient) /\
     fst (fst (priceRecipe bazaarPrices recipe craftCost recipeForDisplay)) = false)
    \/
    ((forall ingredient, In ingredient recipe -> quoted bazaarPrices ingredient) /\
     exists cost display,
       priceRecipe bazaarPrices recipe craftCost recipeForDisplay
       = (true, cost, display) /\
       (cost == craftCost + ingredientsCost bazaarPrices recipe)%Q /\
       map Ingredient.id display
       = map Ingredient.id recipeForDisplay ++ map ingredientId recipe).
Proof.
  induction recipe as [|ingredient rest IH]; intros craftCost recipeForDisplay.
  - right. split; [intros ? []|].
    exists craftCost, recipeForDisplay. simpl.
    split; [reflexivity|]. split; [ring|]. rewrite app_nil_r. reflexivity.
  - cbn [priceRecipe ingredientsCost].
    destruct (get bazaarPrices (ingredientId ingredient)) as [materialInfo|] eqn:G.
    + destruct (IH (craftCost + price materialInfo * quantity ingredient)%Q
                  (recipeForDisplay
                     ++ [Ingredient.mk (ingredientId ingredient) (name materialInfo)
                           (quantity ingredient)]))
        as [[(i & Hi & Hn) Hf] | [Hall (cost & display & E & Hc & Hd)]].
      * left. split; [|exact Hf]. exists i. split; [right; exact Hi|exact Hn].
      * right. split.
        -- intros i [<-|Hi]; [unfold quoted; rewrite G; discriminate|auto].
        -- exists cost, display. split; [exact E|]. split.
           ++ rewrite Hc. ring.
           ++ rewrite Hd, map_app, <- app_assoc. reflexivity.
    + left. split; [|reflexivity].
      exists ingredient. split; [left; reflexivity|].
      unfold quoted. rewrite G. auto.
Qed.

Lemma craftLoop_flips bazaarPrices total items :
  forall run,
    craftingFlips (fold_left (craftStep analyzeCraftingRecipe bazaarPrices total) items run)
    = fold_left
        (fun flips item =>
           pushFlip flips
             (craftingFlipOf bazaarPrices item
                (analyzeCraftingRecipe (ItemForAnalysis.name item))))
        items (craftingFlips run).
Proof.
  induction items as [|item items IH]; intros run; simpl; [reflexivity|].
  rewrite IH. reflexivity.
Qed.

Lemma craftLoop_reported bazaarPrices total items :
  forall run,
    reported (fold_left (craftStep analyzeCraftingRecipe bazaarPrices total) items run)
    = reported run
      ++ map (fun k => progressOf k total)
             (seq (S (processedCount run)) (length items)).
Proof.
  induction items as [|item items IH]; intros run; simpl.
  - rewrite app_nil_r. reflexivity.
  - rewrite IH. simpl. rewrite <- app_assoc. reflexivity.
Qed.



(** *** Progress reports *)







(** *** Names *)

Lemma removeColorCodes_render ps :
  forallb wellFormedPiece ps = true -> removeColorCodes (render ps) = plainText ps.
Proof.
  induction ps as [|p ps IH]; intros H; [reflexivity|].
  cbn [forallb] in H. apply andb_prop in H. destruct H as [Hp Hps].
  specialize (IH Hps). destruct p as [code|c]; simpl in Hp.
  - change (render (Escape code :: ps)) with (SECTION_SIGN :: code :: render ps).
    cbn [removeColorCodes]. rewrite Z.eqb_refl, Hp. exact IH.
  - change (render (Plain c :: ps)) with (c :: render ps).
    change (plainText (Plain c :: ps)) with (c :: plainText ps).
    rewrite <- IH. cbn [removeColorCodes].
    destruct (render ps) as [|d r]; [reflexivity|].
    apply negb_true_iff in Hp. rewrite Hp. reflexivity.
Qed.

Lemma dropWhile_all {A} (f : A -> bool) p l :
  forallb f p = true -> dropWhile f (p ++ l) = dropWhile f l.
Proof.
  induction p as [|x p IH]; simpl; [reflexivity|].
  intros H. apply andb_prop in H. destruct H as [Hx Hp]. rewrite Hx. auto.
Qed.

Lemma forallb_rev {A} (f : A -> bool) l : forallb f l = true -> forallb f (rev l) = true.
Proof.
  rewrite !forallb_forall. intros H x Hx. apply H, in_rev, Hx.
Qed.

Lemma dropWhileEnd_all {A} (f : A -> bool) l q :
  forallb f q = true -> dropWhileEnd f (l ++ q) = dropWhileEnd f l.
Proof.
  intros H. unfold dropWhileEnd. rewrite rev_app_distr.
  rewrite dropWhile_all by (apply forallb_rev, H). reflexivity.
Qed.

Lemma dropWhileEnd_keep {A} (f : A -> bool) l d :
  l <> [] -> f (last l d) = false -> dropWhileEnd f l = l.
Proof.
  intros Hne Hl. unfold dropWhileEnd.
  rewrite (app_removelast_last d Hne) at 1.
  rewrite rev_app_distr. simpl. rewrite Hl. simpl.
  rewrite rev_involutive. symmetry. apply app_removelast_last, Hne.
Qed.

Lemma isWhiteSpace_isAffix c : isAffix c = false -> isWhiteSpace c = false.
Proof.
  unfold isAffix. intros H. apply orb_false_iff in H. tauto.
Qed.

Lemma stripAffixes_core prefix core suffix :
  forallb isAffix prefix = true -> forallb isAffix suffix = true ->
  bare core = true ->
  stripAffixes (prefix ++ core ++ suffix) = core.
Proof.
  intros Hp Hs Hb. unfold stripAffixes. rewrite dropWhile_all by exact Hp.
  destruct core as [|c r].
  - simpl. replace (dropWhile isAffix suffix) with (@nil Z); [reflexivity|].
    rewrite <- (app_nil_r suffix). rewrite dropWhile_all by exact Hs. reflexivity.
  - cbn [bare] in Hb. apply andb_prop in Hb. destruct Hb as [Hc Hl].
    apply negb_true_iff in Hc. apply negb_true_iff in Hl.
    change ((c :: r) ++ suffix) with (c :: r ++ suffix).
    cbn [dropWhile]. rewrite Hc.
    change (c :: r ++ suffix) with ((c :: r) ++ suffix).
    rewrite dropWhileEnd_all by exact Hs.
    apply (dropWhileEnd_keep isAffix (c :: r) c); [discriminate|exact Hl].
Qed.

Lemma trim_bare core : bare core = true -> trim core = core.
Proof.
  intros Hb. unfold trim. destruct core as [|c r]; [reflexivity|].
  cbn [bare] in Hb. apply andb_prop in Hb. destruct Hb as [Hc Hl].
  apply negb_true_iff in Hc. apply negb_true_iff in Hl.
  cbn [dropWhile]. rewrite (isWhiteSpace_isAffix _ Hc).
  apply (dropWhileEnd_keep isWhiteSpace (c :: r) c); [discriminate|].
  apply isWhiteSpace_isAffix, Hl.
Qed.

(** C8.  The raw names "§6✪ Hyperion" and "Hyperion" normalize to the same
    identity, "Hyperion".  In general a raw name made of a core with
    formatting escapes anywhere and affix characters (the two glyphs and
    white space) before and after it normalizes to the core, so two raw
    names that differ only in such markup get an equal key. *)
Theorem normalized_identity :
  normalizeAuctionName (lit "§6✪ Hyperion") = normalizeAuctionName (lit "Hyperion") /\
  normalizeAuctionName (lit "Hyperion") = lit "Hyperion" /\
  (forall core raw, decorates core raw -> normalizeAuctionName raw = core) /\
  (forall core raw1 raw2,
     decorates core raw1 -> decorates core raw2 ->
     normalizeAuctionName raw1 = normalizeAuctionName raw2).
Proof.
  assert (H : forall core raw, decorates core raw -> normalizeAuctionName raw = core).
  { intros core raw (ps & prefix & suffix & -> & Hwf & Hplain & Hp & Hs & Hb).
    unfold normalizeAuctionName.
    rewrite removeColorCodes_render by exact Hwf.
    rewrite Hplain, stripAffixes_core by assumption.
    apply trim_bare, Hb. }
  split; [vm_compute; reflexivity|].
  split; [vm_compute; reflexivity|].
  split; [exact H|].
  intros core raw1 raw2 H1 H2. rewrite (H _ _ H1), (H _ _ H2). reflexivity.
Qed.



(* --------------------------------------------------------------------- *)
(** *** Further properties of the estimator *)

(** From here on a proof depends on the section variables of its
    statement only. *)
Set Default Proof Using "Type".

Lemma candidates_length (l : list RawAuction) :
  length (marketCandidatesOf l) = (length l - 1)%nat.
Proof. unfold marketCandidatesOf. apply length_skipn. Qed.

Lemma filtered_in_candidates (l : list RawAuction) e :
  In e (filteredCandidatesOf l) -> In e (marketCandidatesOf l).
Proof.
  unfold filteredCandidatesOf. intros H. apply filter_In in H. tauto.
Qed.

(** On any input of at least three listings, sorted or not, a candidate
    is returned and the quartile indices are in range. *)
Lemma estimator_three_or_more (l : list RawAuction) :
  (3 <= length l)%nat ->
  fst (findMarketPriceAuction_at l) <> NotEnoughDataForIQR /\
  exists e, findMarketPriceAuction l = Some e /\ In e (marketCandidatesOf l).
Proof.
  intros Hlen. pose proof (candidates_length l) as Hc.
  pose proof (quartile_indices_in_range (map starting_bid (marketCandidatesOf l))) as Hq.
  rewrite length_map in Hq. destruct (Hq ltac:(lia)) as [H13 H3].
  unfold findMarketPriceAuction, findMarketPriceAuction_at.
  replace (length l <? 3)%nat with false by (symmetry; apply Nat.ltb_ge; lia).
  rewrite length_map.
  replace (length (marketCandidatesOf l)
           <=? q1IndexOf (map starting_bid (marketCandidatesOf l)))%nat
    with false by (symmetry; apply Nat.leb_gt; lia).
  replace (length (marketCandidatesOf l)
           <=? q3IndexOf (map starting_bid (marketCandidatesOf l)))%nat
    with false by (symmetry; apply Nat.leb_gt; lia).
  cbn [orb].
  destruct (length (filteredCandidatesOf l) <? 2)%nat eqn:F.
  - cbn [fst snd]. split; [discriminate|].
    destruct (nth_error_some_lt (marketCandidatesOf l) 0 ltac:(lia)) as [e He].
    exists e. split; [exact He|]. eapply nth_error_In; exact He.
  - apply Nat.ltb_ge in F.
    destruct (findWall (filteredCandidatesOf l) 0) as [w|] eqn:W; cbn [fst snd].
    + split; [discriminate|]. apply findWall_range in W.
      destruct (nth_error_some_lt (filteredCandidatesOf l) w ltac:(lia)) as [e He].
      exists e. split; [exact He|].
      apply filtered_in_candidates. eapply nth_error_In; exact He.
    + split; [discriminate|].
      destruct (nth_error_some_lt (filteredCandidatesOf l) 0 ltac:(lia)) as [e He].
      exists e. split; [exact He|].
      apply filtered_in_candidates. eapply nth_error_In; exact He.
Qed.

(** X1.  On every list of listings, sorted or not: the estimator returns
    nothing exactly when there are fewer than two listings; what it
    returns is never the first listing but one of those after it; and it
    never leaves through the "not enough data for IQR" return. *)
Theorem estimate_exists_iff_two_listings :
  forall l : list RawAuction,
    (findMarketPriceAuction l = None <-> (length l < 2)%nat) /\
    (forall e, findMarketPriceAuction l = Some e -> In e (skipn 1 l)) /\
    fst (findMarketPriceAuction_at l) <> NotEnoughDataForIQR.
Proof.
  intros l. destruct (Nat.lt_ge_cases (length l) 3) as [Hs|Hb].
  - assert (E : findMarketPriceAuction_at l = (FewerThanThree, nth_error l 1)).
    { unfold findMarketPriceAuction_at.
      replace (length l <? 3)%nat with true by (symmetry; apply Nat.ltb_lt; lia).
      reflexivity. }
    unfold findMarketPriceAuction. rewrite E. cbn [fst snd].
    split; [|split; [|discriminate]].
    + rewrite nth_error_None. lia.
    + intros e He. apply nth_error_In with (n := 0%nat).
      rewrite nth_error_skipn. exact He.
  - destruct (estimator_three_or_more l Hb) as [Hsite (e & He & Hin)].
    split; [|split; [|exact Hsite]].
    + rewrite He. split; [discriminate|lia].
    + intros e' He'. rewrite He in He'. inversion He'; subst. exact Hin.
Qed.



(* --------------------------------------------------------------------- *)
(** *** Further properties of the tax *)

Lemma tax_cases (price : Q) :
  ((1000000 <= price)%Q /\ calculateAhTax price = (price * (2 # 100))%Q) \/
  ((price < 1000000)%Q /\ calculateAhTax price = (price * (1 # 100))%Q).
Proof.
  unfold calculateAhTax. destruct (Qle_bool 1000000 price) eqn:E.
  - left. split; [apply Qle_bool_iff, E|reflexivity].
  - right. split; [|reflexivity]. apply Qnot_le_lt. intros H.
    apply Qle_bool_iff in H. congruence.
Qed.

(** X3.  For a non-negative price the tax lies between 1% and 2% of the
    price, so the seller keeps between 98% of the price and the price. *)
Theorem tax_bounds :
  forall price : Q,
    (0 <= price)%Q ->
    (price * (1 # 100) <= calculateAhTax price)%Q /\
    (calculateAhTax price <= price * (2 # 100))%Q /\
    (price * (98 # 100) <= price - calculateAhTax price)%Q /\
    (price - calculateAhTax price <= price)%Q.
Proof.
  intros price Hp.
  destruct (tax_cases price) as [[_ E]|[_ E]]; rewrite E; repeat split; lra.
Qed.

(** X4.  Net proceeds grow with the price inside each tier, but not across
    the boundary: a price q of 1,000,000 or more leaves less than a price
    p below 1,000,000 exactly when 98 q < 99 p. *)
Theorem net_proceeds_tiers :
  forall p q : Q,
    (p < q)%Q ->
    (((q < 1000000)%Q \/ (1000000 <= p)%Q) ->
     (p - calculateAhTax p < q - calculateAhTax q)%Q) /\
    ((p < 1000000)%Q -> (1000000 <= q)%Q ->
     ((q - calculateAhTax q < p - calculateAhTax p)%Q <-> (98 * q < 99 * p)%Q)).
Proof.
  intros p q Hpq.
  destruct (tax_cases p) as [[Hp Ep]|[Hp Ep]];
    destruct (tax_cases q) as [[Hq Eq]|[Hq Eq]]; rewrite Ep, Eq; split.
  - intros _. lra.
  - intros H. lra.
  - intros [H|H]; lra.
  - intros H. lra.
  - intros [H|H]; lra.
  - intros _ _. split; intros H; lra.
  - intros _. lra.
  - intros _ H. lra.
Qed.


(* --------------------------------------------------------------------- *)
(** *** Further properties of the names *)

Lemma dropWhile_keep {A} (f : A -> bool) l c t :
  f c = false -> dropWhile f (l ++ c :: t) = dropWhile f l ++ c :: t.
Proof.
  intros Hc. induction l as [|x l IH]; simpl.
  - rewrite Hc. reflexivity.
  - destruct (f x); [exact IH|reflexivity].
Qed.

Lemma dropWhile_head {A} (f : A -> bool) l x r :
  dropWhile f l = x :: r -> f x = false.
Proof.
  induction l as [|y l IH]; simpl; [discriminate|].
  destruct (f y) eqn:E; [exact IH|].
  intros H; inversion H; subst; exact E.
Qed.

Lemma dropWhile_length {A} (f : A -> bool) l :
  (length (dropWhile f l) <= length l)%nat.
Proof.
  induction l as [|x l IH]; simpl; [lia|]. destruct (f x); simpl; lia.
Qed.

Lemma dropWhile_In {A} (f : A -> bool) l x : In x (dropWhile f l) -> In x l.
Proof.
  induction l as [|y l IH]; simpl; [auto|].
  destruct (f y); [intros H; right; auto|auto].
Qed.

Lemma dropWhileEnd_length {A} (f : A -> bool) l :
  (length (dropWhileEnd f l) <= length l)%nat.
Proof.
  unfold dropWhileEnd. rewrite length_rev.
  pose proof (dropWhile_length f (rev l)) as H. rewrite length_rev in H. exact H.
Qed.

Lemma dropWhileEnd_In {A} (f : A -> bool) l x : In x (dropWhileEnd f l) -> In x l.
Proof.
  unfold dropWhileEnd. intros H. apply in_rev in H.
  apply dropWhile_In in H. apply in_rev in H. exact H.
Qed.

(** What is left after both ends are stripped of a class neither starts
    nor ends in the class. *)
Lemma stripped_ends {A} (f : A -> bool) (l : list A) :
  match dropWhileEnd f (dropWhile f l) with
  | [] => True
  | c :: r => f c = false /\ f (last (c :: r) c) = false
  end.
Proof.
  destruct (dropWhile f l) as [|c r] eqn:D; [exact I|].
  pose proof (dropWhile_head f l c r D) as Hc.
  unfold dropWhileEnd. cbn [rev]. rewrite dropWhile_keep by exact Hc.
  rewrite rev_app_distr. cbn [rev app].
  split; [exact Hc|].
  destruct (dropWhile f (rev r)) as [|y d] eqn:E; [exact Hc|].
  pose proof (dropWhile_head f (rev r) y d E) as Hy.
  cbn [rev]. change (c :: rev d ++ [y]) with ((c :: rev d) ++ [y]).
  rewrite last_last. exact Hy.
Qed.

Lemma stripAffixes_bare (s : jsstring) : bare (stripAffixes s) = true.
Proof.
  unfold stripAffixes. pose proof (stripped_ends isAffix s) as H.
  destruct (dropWhileEnd isAffix (dropWhile isAffix s)) as [|c r]; [reflexivity|].
  destruct H as [Hc Hl]. cbn [bare]. rewrite Hc, Hl. reflexivity.
Qed.

Lemma removeColorCodes_pair c d r :
  removeColorCodes (c :: d :: r)
  = if (c =? SECTION_SIGN) && isColorCode d then removeColorCodes r
    else c :: removeColorCodes (d :: r).
Proof. reflexivity. Qed.

Lemma removeColorCodes_length_bounded (n : nat) :
  forall s, (length s <= n)%nat ->
            (length (removeColorCodes s) <= length s)%nat.
Proof.
  induction n as [|n IH]; intros s Hn.
  - destruct s; simpl in *; lia.
  - destruct s as [|c [|d r]]; [simpl; lia|simpl; lia|].
    rewrite removeColorCodes_pair.
    destruct ((c =? SECTION_SIGN) && isColorCode d).
    + specialize (IH r). cbn [length] in *. lia.
    + specialize (IH (d :: r)). cbn [length] in *. lia.
Qed.

Lemma removeColorCodes_without_escape_bounded (n : nat) :
  forall s, (length s <= n)%nat -> ~ In SECTION_SIGN s -> removeColorCodes s = s.
Proof.
  induction n as [|n IH]; intros s Hn Hs.
  - destruct s; [reflexivity|simpl in Hn; lia].
  - destruct s as [|c [|d r]]; try reflexivity.
    rewrite removeColorCodes_pair.
    assert (Hc : (c =? SECTION_SIGN) = false)
      by (apply Z.eqb_neq; intros ->; apply Hs; left; reflexivity).
    rewrite Hc. cbn [andb]. f_equal. apply IH.
    + simpl in *. lia.
    + intros H. apply Hs. right. exact H.
Qed.

Lemma normalized_name_is_bare_aux (name : jsstring) :
  bare (normalizeAuctionName name) = true /\
  normalizeAuctionName name = stripAffixes (removeColorCodes name).
Proof.
  assert (E : normalizeAuctionName name = stripAffixes (removeColorCodes name)).
  { unfold normalizeAuctionName. apply trim_bare, stripAffixes_bare. }
  rewrite E. split; [apply stripAffixes_bare|reflexivity].
Qed.

(** X5.  Whatever the raw name, its normalized form neither starts nor
    ends with a star, a staff or white space, it is no longer than the raw
    name, and the final [trim] removes nothing. *)
Theorem normalized_name_is_bare :
  forall name : jsstring,
    bare (normalizeAuctionName name) = true /\
    normalizeAuctionName name = stripAffixes (removeColorCodes name) /\
    (length (normalizeAuctionName name) <= length name)%nat.
Proof.
  intros name.
  assert (E : normalizeAuctionName name = stripAffixes (removeColorCodes name)).
  { unfold normalizeAuctionName. apply trim_bare, stripAffixes_bare. }
  rewrite E. split; [apply stripAffixes_bare|]. split; [reflexivity|].
  unfold stripAffixes.
  pose proof (dropWhileEnd_length isAffix (dropWhile isAffix (removeColorCodes name))).
  pose proof (dropWhile_length isAffix (removeColorCodes name)).
  pose proof (removeColorCodes_length_bounded (length name) name (le_n _)).
  lia.
Qed.

Lemma normalize_fixed_point (name : jsstring) :
  bare name = true -> ~ In SECTION_SIGN name -> normalizeAuctionName name = name.
Proof.
  intros Hb Hs. unfold normalizeAuctionName.
  rewrite (removeColorCodes_without_escape_bounded (length name) name (le_n _) Hs).
  pose proof (stripAffixes_core [] name [] eq_refl eq_refl Hb) as E.
  simpl in E. rewrite app_nil_r in E. rewrite E. apply trim_bare, Hb.
Qed.

(** X6.  A name without a section sign that neither starts nor ends with
    an affix character is its own normalized form, and normalizing a name
    without a section sign twice gives the same key as once; with section
    signs this fails: the key of "§§66" is "§6", whose key is empty. *)
Theorem normalization_fixed_points :
  (forall name, bare name = true -> ~ In SECTION_SIGN name ->
                normalizeAuctionName name = name) /\
  (forall name, ~ In SECTION_SIGN name ->
                normalizeAuctionName (normalizeAuctionName name)
                = normalizeAuctionName name) /\
  normalizeAuctionName (lit "§§66") = lit "§6" /\
  normalizeAuctionName (lit "§6") = [].
Proof.
  split; [exact normalize_fixed_point|]. split; [|split; reflexivity].
  intros name Hs. apply normalize_fixed_point.
  - destruct (normalized_name_is_bare_aux name) as [Hb _]. exact Hb.
  - destruct (normalized_name_is_bare_aux name) as [_ E]. rewrite E.
    rewrite (removeColorCodes_without_escape_bounded (length name) name (le_n _) Hs).
    unfold stripAffixes. intros H.
    apply dropWhileEnd_In in H. apply dropWhile_In in H. exact (Hs H).
Qed.


(* --------------------------------------------------------------------- *)
(** *** Maps *)

Lemma jsstring_eqb_refl s : jsstring_eqb s s = true.
Proof. unfold jsstring_eqb. destruct (jsstring_eq_dec s s); congruence. Qed.

Lemma jsstring_eqb_neq s t : s <> t -> jsstring_eqb s t = false.
Proof. unfold jsstring_eqb. destruct (jsstring_eq_dec s t); congruence. Qed.

Lemma get_set_eq {V} (m : Map V) k v : get (set m k v) k = Some v.
Proof.
  induction m as [|[k0 v0] r IH]; simpl.
  - rewrite jsstring_eqb_refl. reflexivity.
  - destruct (jsstring_eqb k0 k) eqn:E; simpl; rewrite E; auto.
Qed.

Lemma get_set_neq {V} (m : Map V) k k' v :
  k' <> k -> get (set m k v) k' = get m k'.
Proof.
  intros Hne. induction m as [|[k0 v0] r IH]; simpl.
  - rewrite jsstring_eqb_neq by congruence. reflexivity.
  - destruct (jsstring_eqb k0 k) eqn:E; simpl.
    + apply jsstring_eqb_eq in E. subst k0.
      rewrite jsstring_eqb_neq by congruence. reflexivity.
    + destruct (jsstring_eqb k0 k'); [reflexivity|exact IH].
Qed.

Lemma get_None_keys {V} (m : Map V) k : get m k = None <-> ~ In k (map fst m).
Proof.
  clear analyzeCraftingRecipe toLowerCase toUpperCase.
  induction m as [|[k0 v0] r IH]; simpl; [tauto|].
  destruct (jsstring_eqb k0 k) eqn:E.
  - apply jsstring_eqb_eq in E. split; [discriminate|]. intros H. tauto.
  - rewrite IH. split.
    + intros H [H0|H0]; [|tauto]. subst. rewrite jsstring_eqb_refl in E. discriminate.
    + tauto.
Qed.

Lemma keys_set {V} (m : Map V) k v :
  map fst (set m k v)
  = match get m k with Some _ => map fst m | None => map fst m ++ [k] end.
Proof.
  induction m as [|[k0 v0] r IH]; simpl; [reflexivity|].
  destruct (jsstring_eqb k0 k) eqn:E; simpl; [reflexivity|].
  rewrite IH. destruct (get r k); reflexivity.
Qed.

Lemma NoDup_keys_set {V} (m : Map V) k v :
  NoDup (map fst m) -> NoDup (map fst (set m k v)).
Proof.
  intros H. rewrite keys_set. destruct (get m k) eqn:G; [exact H|].
  apply get_None_keys in G.
  apply NoDup_rev in H. rewrite <- (rev_involutive (map fst m ++ [k])).
  apply NoDup_rev. rewrite rev_app_distr. simpl. constructor; [|exact H].
  intros Hin. apply in_rev in Hin. exact (G Hin).
Qed.

Lemma In_get {V} (m : Map V) k v :
  NoDup (map fst m) -> In (k, v) m -> get m k = Some v.
Proof.
  clear analyzeCraftingRecipe toLowerCase toUpperCase.
  induction m as [|[k0 v0] r IH]; simpl; [tauto|].
  intros Hnd [H|H].
  - inversion H; subst. rewrite jsstring_eqb_refl. reflexivity.
  - inversion Hnd as [|? ? Hnot Hnd']; subst.
    destruct (jsstring_eqb k0 k) eqn:E; [|auto].
    apply jsstring_eqb_eq in E. subst k0. exfalso. apply Hnot.
    change k with (fst (k, v)). apply in_map, H.
Qed.

(* --------------------------------------------------------------------- *)
(** *** Further properties of grouping *)

Lemma get_addToGroup (m : Map (list RawAuction)) (a : RawAuction) k :
  get (addToGroup m a) k
  = if jsstring_eqb (normalizeAuctionName (item_name a)) k
    then Some (match get m k with Some members => members | None => [] end ++ [a])
    else get m k.
Proof.
  unfold addToGroup. set (key := normalizeAuctionName (item_name a)).
  unfold has. destruct (get m key) as [members|] eqn:G.
  - rewrite G. destruct (jsstring_eqb key k) eqn:E.
    + apply jsstring_eqb_eq in E. subst k. rewrite G. apply get_set_eq.
    + apply get_set_neq. intros ->. rewrite jsstring_eqb_refl in E. discriminate.
  - rewrite get_set_eq. destruct (jsstring_eqb key k) eqn:E.
    + apply jsstring_eqb_eq in E. subst k. rewrite G. apply get_set_eq.
    + assert (Hne : k <> key)
        by (intros ->; rewrite jsstring_eqb_refl in E; discriminate).
      rewrite !get_set_neq by exact Hne. reflexivity.
Qed.

Lemma NoDup_keys_addToGroup (m : Map (list RawAuction)) (a : RawAuction) :
  NoDup (map fst m) -> NoDup (map fst (addToGroup m a)).
Proof.
  intros H. unfold addToGroup.
  set (key := normalizeAuctionName (item_name a)).
  set (grouped := if has m key then m else set m key []).
  assert (Hg : NoDup (map fst grouped))
    by (unfold grouped; destruct (has m key); [exact H|apply NoDup_keys_set, H]).
  destruct (get grouped key); [apply NoDup_keys_set, Hg|exact Hg].
Qed.

Lemma get_fold_addToGroup (l : list RawAuction) :
  forall (m : Map (list RawAuction)) k,
    get (fold_left addToGroup l m) k
    = match get m k,
            filter (fun a => jsstring_eqb (normalizeAuctionName (item_name a)) k) l
      with
      | None, [] => None
      | Some members, later => Some (members ++ later)
      | None, later => Some later
      end.
Proof.
  induction l as [|a l IH]; intros m k; cbn [fold_left filter].
  - destruct (get m k); [rewrite app_nil_r|]; reflexivity.
  - rewrite IH, get_addToGroup.
    destruct (jsstring_eqb (normalizeAuctionName (item_name a)) k).
    + destruct (get m k) as [members|]; cbn [app].
      * rewrite <- app_assoc. reflexivity.
      * reflexivity.
    + reflexivity.
Qed.

Lemma NoDup_keys_groupAuctions (l : list RawAuction) :
  NoDup (map fst (groupAuctions l)).
Proof.
  unfold groupAuctions.
  assert (H : forall m, NoDup (map fst m) ->
                        NoDup (map fst (fold_left addToGroup l m))).
  { induction l as [|a l IH]; intros m Hm; simpl; [exact Hm|].
    apply IH, NoDup_keys_addToGroup, Hm. }
  apply H. constructor.
Qed.

(** X7.  Grouping is a partition of the active listings by normalized
    name: the keys are distinct, the group of a key is exactly the
    listings with that normalized name, in feed order, and is never
    empty; so every listing is in the group of its own name. *)
Theorem groups_partition_by_name :
  forall (activeBins : list RawAuction),
    let named k a := jsstring_eqb (normalizeAuctionName (item_name a)) k in
    NoDup (map fst (entries (groupAuctions activeBins))) /\
    (forall k members,
       In (k, members) (entries (groupAuctions activeBins)) <->
       members <> [] /\ members = filter (named k) activeBins) /\
    (forall a, In a activeBins ->
       exists members,
         In (normalizeAuctionName (item_name a), members)
            (entries (groupAuctions activeBins)) /\
         In a members).
Proof.
  intros activeBins named.
  pose proof (NoDup_keys_groupAuctions activeBins) as Hnd.
  assert (Hget : forall k,
             get (groupAuctions activeBins) k
             = match filter (named k) activeBins with
               | [] => None
               | members => Some members
               end).
  { intros k. unfold groupAuctions. rewrite get_fold_addToGroup. simpl.
    fold (named k). destruct (filter (named k) activeBins); reflexivity. }
  unfold entries. split; [exact Hnd|]. split.
  - intros k members. split.
    + intros Hin. apply (In_get _ _ _ Hnd) in Hin. rewrite Hget in Hin.
      destruct (filter (named k) activeBins) as [|x r]; [discriminate|].
      inversion Hin; subst. split; [discriminate|reflexivity].
    + intros [Hne ->]. apply get_In. rewrite Hget.
      destruct (filter (named k) activeBins); [congruence|reflexivity].
  - intros a Ha.
    exists (filter (named (normalizeAuctionName (item_name a))) activeBins).
    assert (Hin : In a (filter (named (normalizeAuctionName (item_name a)))
                               activeBins)).
    { apply filter_In. split; [exact Ha|]. unfold named. apply jsstring_eqb_refl. }
    split; [|exact Hin]. apply get_In. rewrite Hget.
    destruct (filter (named (normalizeAuctionName (item_name a))) activeBins);
      [contradiction|reflexivity].
Qed.


(* --------------------------------------------------------------------- *)
(** *** Further properties of sorting and of the auction flips *)

Lemma estimate_in_tail (l : list RawAuction) e :
  findMarketPriceAuction l = Some e -> In e (skipn 1 l).
Proof.
  intros He. destruct (Nat.lt_ge_cases (length l) 3) as [Hs|Hb].
  - unfold findMarketPriceAuction, findMarketPriceAuction_at in He.
    replace (length l <? 3)%nat with true in He
      by (symmetry; apply Nat.ltb_lt; lia).
    cbn [snd] in He. apply nth_error_In with (n := 0%nat).
    rewrite nth_error_skipn. exact He.
  - destruct (estimator_three_or_more l Hb) as [_ (e' & He' & Hin)].
    rewrite He in He'. inversion He'; subst. exact Hin.
Qed.

Lemma insertByBid_stable (p : Z) a l :
  filter (fun x => starting_bid x =? p) (insertByBid a l)
  = filter (fun x => starting_bid x =? p) (a :: l).
Proof.
  induction l as [|b r IH]; [reflexivity|].
  cbn [insertByBid]. destruct (starting_bid a <=? starting_bid b) eqn:E;
    [reflexivity|].
  apply Z.leb_gt in E. cbn [filter] in *. rewrite IH.
  destruct (starting_bid a =? p) eqn:Ea; destruct (starting_bid b =? p) eqn:Eb;
    try reflexivity.
  apply Z.eqb_eq in Ea. apply Z.eqb_eq in Eb. lia.
Qed.

(** X8.  Sorting a group by price gives an ascending rearrangement of the
    group that keeps listings of equal price in feed order; so the listing
    bought, the head of the sorted group, is the first listing of the
    group, in feed order, among those with the lowest price. *)
Theorem sort_is_stable :
  forall auctions : list RawAuction,
    ascending (sortByBid auctions) /\
    Permutation auctions (sortByBid auctions) /\
    (forall p, filter (fun x => starting_bid x =? p) (sortByBid auctions)
               = filter (fun x => starting_bid x =? p) auctions) /\
    (forall buyAuction rest,
       sortByBid auctions = buyAuction :: rest ->
       (forall a, In a auctions -> starting_bid buyAuction <= starting_bid a) /\
       hd_error (filter (fun x => starting_bid x =? starting_bid buyAuction) auctions)
       = Some buyAuction).
Proof.
  intros auctions.
  assert (Hstable : forall p,
             filter (fun x => starting_bid x =? p) (sortByBid auctions)
             = filter (fun x => starting_bid x =? p) auctions).
  { intros p. induction auctions as [|a l IH]; [reflexivity|].
    cbn [sortByBid fold_right]. fold (sortByBid l).
    rewrite insertByBid_stable. cbn [filter]. rewrite IH. reflexivity. }
  split; [apply sortByBid_ascending|]. split; [apply sortByBid_perm|].
  split; [exact Hstable|].
  intros buyAuction rest E. split.
  - exact (sortByBid_head_cheapest auctions buyAuction rest E).
  - rewrite <- Hstable, E. cbn [filter]. rewrite Z.eqb_refl. reflexivity.
Qed.

Lemma pushed_flat_map {A B} (g : B -> option A) (l : list B) :
  forall acc,
    fold_left (fun flips e => pushFlip flips (g e)) l acc
    = acc ++ flat_map (fun e => match g e with Some f => [f] | None => [] end) l.
Proof.
  induction l as [|e l IH]; intros acc; simpl.
  - rewrite app_nil_r. reflexivity.
  - rewrite IH. destruct (g e); simpl.
    + rewrite <- app_assoc. reflexivity.
    + reflexivity.
Qed.

Lemma flat_map_option_length {A B} (g : B -> option A) (l : list B) :
  (length (flat_map (fun e => match g e with Some f => [f] | None => [] end) l)
   <= length l)%nat.
Proof.
  induction l as [|e l IH]; cbn [flat_map length]; [lia|].
  rewrite length_app. destruct (g e); cbn [length]; lia.
Qed.

(** What a flip records, read off the loop body. *)
Lemma auctionFlipOf_fields itemName auctions flip :
  auctionFlipOf (itemName, auctions) = Some flip ->
  exists buyAuction rest estimate,
    sortByBid auctions = buyAuction :: rest /\
    findMarketPriceAuction (buyAuction :: rest) = Some estimate /\
    MIN_PRICE <= starting_bid buyAuction /\
    starting_bid buyAuction < starting_bid estimate /\
    (PROFIT_THRESHOLD
     < (inject_Z (starting_bid estimate)
        - calculateAhTax (inject_Z (starting_bid estimate)))
       - inject_Z (starting_bid buyAuction))%Q /\
    flip = AuctionFlip.mk (uuid buyAuction) itemName (tier buyAuction)
             (item_lore buyAuction) (starting_bid buyAuction)
             (starting_bid estimate)
             (Math_round
                ((inject_Z (starting_bid estimate)
                  - calculateAhTax (inject_Z (starting_bid estimate)))
                 - inject_Z (starting_bid buyAuction))).
Proof.
  intros H. unfold auctionFlipOf in H.
  destruct (length auctions <? 2)%nat; [discriminate|].
  destruct (sortByBid auctions) as [|buyAuction rest] eqn:S; [discriminate|].
  destruct (starting_bid buyAuction <? MIN_PRICE) eqn:M; [discriminate|].
  apply Z.ltb_ge in M.
  destruct (findMarketPriceAuction (buyAuction :: rest)) as [estimate|] eqn:F;
    [|discriminate].
  destruct (starting_bid estimate <=? starting_bid buyAuction) eqn:D;
    [discriminate|].
  apply Z.leb_gt in D.
  match type of H with
  | (if gtb ?p _ then _ else _) = _ => destruct (gtb p PROFIT_THRESHOLD) eqn:G
  end; [|discriminate].
  apply gtb_true in G. inversion H; subst; clear H.
  exists buyAuction, rest, estimate. repeat split; assumption.
Qed.

Lemma Math_round_lower (z : Z) (x : Q) : (inject_Z z <= x)%Q -> z <= Math_round x.
Proof.
  intros H. unfold Math_round. rewrite <- (Qfloor_Z z).
  apply Qfloor_resp_le. lra.
Qed.

(** X9.  Every auction flip returned buys a listing priced at least 1 and
    strictly below the market price, reports a profit of at least 50,000
    coins, and takes its identifier, rarity, lore and buy price from an
    active fixed-price listing of the feed and its market price from an
    active fixed-price listing of the feed, both with the flip's name as
    normalized name. *)
Theorem auction_flips_are_sound :
  forall (allAuctions : list RawAuction) (flip : AuctionFlip.t),
    In flip (fetchAuctionFlips allAuctions) ->
    1 <= AuctionFlip.lowestBin flip /\
    AuctionFlip.lowestBin flip < AuctionFlip.marketPrice flip /\
    50000 <= AuctionFlip.profit flip /\
    exists buyAuction estimate,
      In buyAuction (filter isActiveBin allAuctions) /\
      In estimate (filter isActiveBin allAuctions) /\
      normalizeAuctionName (item_name buyAuction) = AuctionFlip.itemName flip /\
      normalizeAuctionName (item_name estimate) = AuctionFlip.itemName flip /\
      AuctionFlip.id flip = uuid buyAuction /\
      AuctionFlip.rarity flip = tier buyAuction /\
      AuctionFlip.lore flip = item_lore buyAuction /\
      AuctionFlip.lowestBin flip = starting_bid buyAuction /\
      AuctionFlip.marketPrice flip = starting_bid estimate.
Proof.
  intros allAuctions flip Hin. unfold fetchAuctionFlips in Hin.
  apply In_pushed in Hin. destruct Hin as [[]|([itemName auctions] & He & Hf)].
  destruct (auctionFlipOf_fields _ _ _ Hf)
    as (buyAuction & rest & estimate & S & F & M & D & G & ->).
  cbn [AuctionFlip.lowestBin AuctionFlip.marketPrice AuctionFlip.profit
       AuctionFlip.id AuctionFlip.rarity AuctionFlip.lore AuctionFlip.itemName].
  unfold MIN_PRICE in M.
  split; [exact M|]. split; [exact D|]. split.
  - apply Math_round_lower. unfold PROFIT_THRESHOLD in G.
    change (inject_Z 50000) with 50000%Q. lra.
  - assert (Hmem : forall a, In a (buyAuction :: rest) -> In a auctions).
    { intros a Ha. rewrite <- S in Ha.
      apply (Permutation_in _ (Permutation_sym (sortByBid_perm auctions))), Ha. }
    pose proof (groupAuctions_wellGrouped (filter isActiveBin allAuctions)) as Hw.
    exists buyAuction, estimate.
    assert (Hb : In buyAuction auctions) by (apply Hmem; left; reflexivity).
    assert (He' : In estimate auctions).
    { apply Hmem. apply estimate_in_tail in F. simpl in F. right; exact F. }
    destruct (Hw itemName auctions buyAuction He Hb) as [Hb1 Hb2].
    destruct (Hw itemName auctions estimate He He') as [He1 He2].
    repeat split; assumption.
Qed.





(* --------------------------------------------------------------------- *)
(** *** Further properties of the bazaar readers *)

Lemma get_addPrice (m : Map MaterialInfo) k product k' :
  get (addPrice toLowerCase toUpperCase m (k, product)) k'
  = match quoteOf toLowerCase toUpperCase product with
    | Some info => if jsstring_eqb k k' then Some info else get m k'
    | None => get m k'
    end.
Proof.
  unfold addPrice, quoteOf.
  destruct (quick_status product) as [status|]; [|reflexivity].
  destruct (gtb (QuickStatus.sellPrice status) 0); [|reflexivity].
  destruct (jsstring_eqb k k') eqn:E.
  - apply jsstring_eqb_eq in E. subst k'. apply get_set_eq.
  - apply get_set_neq. intros ->. rewrite jsstring_eqb_refl in E. discriminate.
Qed.

Lemma quoteOf_Some product info :
  quoteOf toLowerCase toUpperCase product = Some info <->
  exists status,
    quick_status product = Some status /\
    (0 < QuickStatus.sellPrice status)%Q /\
    info = mkMaterialInfo (QuickStatus.sellPrice status)
             (formatItemName toLowerCase toUpperCase (product_id product)).
Proof.
  unfold quoteOf. destruct (quick_status product) as [status|].
  - destruct (gtb (QuickStatus.sellPrice status) 0) eqn:G.
    + apply gtb_true in G. split.
      * intros H; inversion H; subst. exists status. auto.
      * intros (status' & Hs & _ & ->). inversion Hs; subst. reflexivity.
    + apply gtb_false in G. split; [discriminate|].
      intros (status' & Hs & Hpos & _). inversion Hs; subst. lra.
  - split; [discriminate|]. intros (status' & Hs & _). discriminate.
Qed.

Lemma get_fold_addPrice (ps : list (jsstring * Product)) :
  NoDup (map fst ps) ->
  forall (m : Map MaterialInfo) k info,
    get (fold_left (addPrice toLowerCase toUpperCase) ps m) k = Some info <->
    (exists product,
       In (k, product) ps /\
       quoteOf toLowerCase toUpperCase product = Some info) \/
    ((forall product, In (k, product) ps ->
                      quoteOf toLowerCase toUpperCase product = None) /\
     get m k = Some info).
Proof.
  induction ps as [|[k0 p0] ps IH]; intros Hnd m k info.
  - simpl. split; [intros H; right; split; [intros ? []|exact H]|].
    intros [(? & [] & _)|[_ H]]; exact H.
  - inversion Hnd as [|? ? Hnot Hnd']; subst.
    cbn [fold_left]. rewrite (IH Hnd'). rewrite get_addPrice.
    destruct (jsstring_eq_dec k0 k) as [->|Hne].
    + rewrite jsstring_eqb_refl.
      assert (Hfresh : forall product, ~ In (k, product) ps).
      { intros product H. apply Hnot. change k with (fst (k, product)).
        apply in_map, H. }
      split.
      * intros [(product & Hin & _)|[_ Hg]]; [exfalso; exact (Hfresh _ Hin)|].
        destruct (quoteOf toLowerCase toUpperCase p0) as [info0|] eqn:Q.
        -- left. exists p0. split; [left; reflexivity|]. rewrite Q. exact Hg.
        -- right. split; [|exact Hg]. intros product [H|H];
             [inversion H; subst; exact Q|exfalso; exact (Hfresh _ H)].
      * intros [(product & [H|H] & Hq)|[Hno Hg]].
        -- inversion H; subst. right.
           split; [intros ? Hin; exfalso; exact (Hfresh _ Hin)|].
           rewrite Hq. reflexivity.
        -- exfalso; exact (Hfresh _ H).
        -- right. split; [intros ? Hin; exfalso; exact (Hfresh _ Hin)|].
           rewrite (Hno p0 (or_introl eq_refl)). exact Hg.
    + assert (E : jsstring_eqb k0 k = false) by (apply jsstring_eqb_neq, Hne).
      rewrite E.
      assert (Hsame : match quoteOf toLowerCase toUpperCase p0 with
                      | Some _ => get m k | None => get m k end = get m k)
        by (destruct (quoteOf toLowerCase toUpperCase p0); reflexivity).
      rewrite Hsame. split.
      * intros [(product & Hin & Hq)|[Hno Hg]].
        -- left. exists product. split; [right; exact Hin|exact Hq].
        -- right. split; [|exact Hg]. intros product [H|H];
             [inversion H; congruence|apply Hno, H].
      * intros [(product & [H|H] & Hq)|[Hno Hg]].
        -- inversion H; congruence.
        -- left. exists product. split; [exact H|exact Hq].
        -- right. split; [|exact Hg]. intros product H.
           apply Hno. right; exact H.
Qed.

Lemma bazaar_prices_lookup_aux (response : BazaarResponse)
    (bazaarPrices : Map MaterialInfo) :
  fetchBazaarPrices toLowerCase toUpperCase response = Resolved bazaarPrices ->
  NoDup (map fst (products (json response))) ->
  forall k info,
    get bazaarPrices k = Some info <->
    exists product status,
      In (k, product) (products (json response)) /\
      quick_status product = Some status /\
      (0 < QuickStatus.sellPrice status)%Q /\
      info = mkMaterialInfo (QuickStatus.sellPrice status)
               (formatItemName toLowerCase toUpperCase (product_id product)).
Proof.
  clear analyzeCraftingRecipe.
  intros H Hnd. unfold fetchBazaarPrices in H.
  destruct (negb (ok response)); [discriminate|].
  destruct (negb (success (json response))); [discriminate|].
  inversion H; subst; clear H.
  intros k info. rewrite (get_fold_addPrice _ Hnd). simpl. split.
  - intros [(product & Hin & Hq)|[_ H]]; [|discriminate].
    apply quoteOf_Some in Hq. destruct Hq as (status & Hq).
    exists product, status. tauto.
  - intros (product & status & Hin & Hq). left. exists product.
    split; [exact Hin|]. apply quoteOf_Some. exists status. exact Hq.
Qed.

(** X11.  The price map read from a bazaar snapshot with distinct product
    identifiers quotes exactly the products that have a status with a
    positive sell price, at that price and under the formatted name; so
    every quoted price is positive, and a product without status or with
    a sell price of zero has no quote. *)
Theorem bazaar_prices_lookup :
  forall (response : BazaarResponse) (bazaarPrices : Map MaterialInfo),
    fetchBazaarPrices toLowerCase toUpperCase response = Resolved bazaarPrices ->
    NoDup (map fst (products (json response))) ->
    (forall k info,
       get bazaarPrices k = Some info <->
       exists product status,
         In (k, product) (products (json response)) /\
         quick_status product = Some status /\
         (0 < QuickStatus.sellPrice status)%Q /\
         info = mkMaterialInfo (QuickStatus.sellPrice status)
                  (formatItemName toLowerCase toUpperCase (product_id product))) /\
    (forall k info, get bazaarPrices k = Some info -> (0 < price info)%Q).
Proof.
  intros response bazaarPrices H Hnd.
  pose proof (bazaar_prices_lookup_aux response bazaarPrices H Hnd) as Hiff.
  split; [exact Hiff|].
  intros k info Hg. apply Hiff in Hg.
  destruct Hg as (product & status & _ & _ & Hpos & ->). exact Hpos.
Qed.

(** X12.  The two bazaar readers fail together and with the same message:
    "Failed to fetch Bazaar data" when the response is not ok, the cause
    reported by the API (or "Bazaar API call failed" when it reports none)
    when the call did not succeed; otherwise both resolve. *)
Theorem bazaar_readers_fail_alike :
  forall response : BazaarResponse,
    (forall message,
       fetchBazaarFlips toLowerCase toUpperCase response = Rejected message <->
       fetchBazaarPrices toLowerCase toUpperCase response = Rejected message) /\
    (ok response = false ->
     fetchBazaarFlips toLowerCase toUpperCase response
     = Rejected (lit "Failed to fetch Bazaar data")) /\
    (ok response = true -> success (json response) = false ->
     fetchBazaarFlips toLowerCase toUpperCase response
     = Rejected (match cause (json response) with
                 | Some (c :: r) => c :: r
                 | _ => lit "Bazaar API call failed"
                 end)) /\
    (ok response = true -> success (json response) = true ->
     exists flips bazaarPrices,
       fetchBazaarFlips toLowerCase toUpperCase response = Resolved flips /\
       fetchBazaarPrices toLowerCase toUpperCase response = Resolved bazaarPrices).
Proof.
  intros response. unfold fetchBazaarFlips, fetchBazaarPrices, orDefault.
  destruct (ok response); destruct (success (json response)); cbn [negb].
  - split; [intros message; split; discriminate|].
    split; [discriminate|]. split; [discriminate|].
    intros _ _. eexists. eexists. split; reflexivity.
  - split; [intros message; split; intros H; inversion H; reflexivity|].
    split; [discriminate|]. split; [reflexivity|discriminate].
  - split; [intros message; split; intros H; inversion H; reflexivity|].
    split; [reflexivity|]. split; discriminate.
  - split; [intros message; split; intros H; inversion H; reflexivity|].
    split; [reflexivity|]. split; discriminate.
Qed.



(* --------------------------------------------------------------------- *)
(** *** Further properties of the crafting pipeline *)




Lemma craftingFlipOf_fields (bazaarPrices : Map MaterialInfo)
    (item : ItemForAnalysis.t) recipe flip :
  craftingFlipOf bazaarPrices item recipe = Some flip ->
  exists cost display,
    (0 < cost)%Q /\
    (CRAFT_PROFIT_THRESHOLD
     < (inject_Z (ItemForAnalysis.price item)
        - calculateAhTax (inject_Z (ItemForAnalysis.price item))) - cost)%Q /\
    display <> [] /\
    flip = CraftingFlip.mk (ItemForAnalysis.id item) (ItemForAnalysis.name item)
             (ItemForAnalysis.rarity item) (ItemForAnalysis.price item)
             (Math_round cost)
             (Math_round
                ((inject_Z (ItemForAnalysis.price item)
                  - calculateAhTax (inject_Z (ItemForAnalysis.price item))) - cost))
             display.
Proof.
  intros H. unfold craftingFlipOf in H.
  destruct recipe as [|r0 rest]; [discriminate|].
  destruct (priceRecipe_result bazaarPrices (r0 :: rest) 0 [])
    as [[_ Hf] | [_ (c & d & E & _ & Hd)]].
  - destruct (priceRecipe bazaarPrices (r0 :: rest) 0 []) as [[b q] d].
    simpl in Hf. subst b. discriminate.
  - rewrite E in H. cbn [andb] in H.
    destruct (gtb c 0) eqn:G0; [|discriminate]. apply gtb_true in G0.
    match type of H with
    | (if gtb ?p _ then _ else _) = _ =>
        destruct (gtb p CRAFT_PROFIT_THRESHOLD) eqn:G1
    end; [|discriminate].
    apply gtb_true in G1. inversion H; subst flip; clear H.
    exists c, d. split; [exact G0|]. split; [exact G1|]. split; [|reflexivity].
    intros ->. simpl in Hd. discriminate.
Qed.


(** X15.  When the bazaar snapshot cannot be read the crafting call fails
    with the reader's message and the progress callback is never called.
    Otherwise it resolves, with one progress report per candidate and at
    most one flip per candidate; every flip is the flip of a candidate,
    carries its identifier, name, rarity and price, has a recipe to
    display, and resells above 100,000 coins. *)
Theorem crafting_call_outcome :
  forall (response : BazaarResponse) (itemsToAnalyze : list ItemForAnalysis.t),
    (forall message,
       fetchBazaarPrices toLowerCase toUpperCase response = Rejected message ->
       fetchCraftingFlips toLowerCase toUpperCase analyzeCraftingRecipe
                          response itemsToAnalyze
       = ([], Rejected message)) /\
    (forall bazaarPrices,
       fetchBazaarPrices toLowerCase toUpperCase response = Resolved bazaarPrices ->
       exists log flips,
         fetchCraftingFlips toLowerCase toUpperCase analyzeCraftingRecipe
                            response itemsToAnalyze
         = (log, Resolved flips) /\
         length log = length itemsToAnalyze /\
         (length flips <= length itemsToAnalyze)%nat /\
         forall flip, In flip flips ->
           100000 < CraftingFlip.marketPrice flip /\
           CraftingFlip.recipe flip <> [] /\
           exists candidate,
             In candidate itemsToAnalyze /\
             CraftingFlip.id flip = ItemForAnalysis.id candidate /\
             CraftingFlip.itemName flip = ItemForAnalysis.name candidate /\
             CraftingFlip.rarity flip = ItemForAnalysis.rarity candidate /\
             CraftingFlip.marketPrice flip = ItemForAnalysis.price candidate).
Proof.
  intros response itemsToAnalyze. unfold fetchCraftingFlips. split.
  - intros message ->. reflexivity.
  - intros bazaarPrices ->. eexists. eexists. split; [reflexivity|].
    unfold craftLoop. rewrite craftLoop_reported, craftLoop_flips.
    cbn [reported craftingFlips processedCount app].
    rewrite length_map, length_seq. split; [reflexivity|].
    rewrite pushed_flat_map. cbn [app].
    split; [apply flat_map_option_length|].
    intros flip Hin. apply in_flat_map in Hin.
    destruct Hin as (candidate & Hc & Hf).
    destruct (craftingFlipOf bazaarPrices candidate
                (analyzeCraftingRecipe (ItemForAnalysis.name candidate)))
      as [f|] eqn:F; [|contradiction].
    destruct Hf as [<-|[]].
    destruct (craftingFlipOf_fields _ _ _ _ F) as (cost & display & H0 & H1 & Hd & ->).
    cbn [CraftingFlip.marketPrice CraftingFlip.recipe CraftingFlip.id
         CraftingFlip.itemName CraftingFlip.rarity].
    split; [|split; [exact Hd|exists candidate; repeat split; assumption]].
    rewrite Zlt_Qlt. unfold CRAFT_PROFIT_THRESHOLD in H1.
    change (inject_Z 100000) with 100000%Q.
    destruct (tax_cases (inject_Z (ItemForAnalysis.price candidate)))
      as [[Ht E]|[Ht E]]; rewrite E in H1; lra.
Qed.


(* --------------------------------------------------------------------- *)
(** *** The auction feed *)

Lemma flat_map_same_on {A B} (f g : A -> list B) (l : list A) :
  (forall x, In x l -> f x = g x) -> flat_map f l = flat_map g l.
Proof.
  induction l as [|x l IH]; intros H; cbn [flat_map]; [reflexivity|].
  rewrite (H x (or_introl eq_refl)), IH; [reflexivity|].
  intros y Hy. apply H. right; exact Hy.
Qed.

Lemma fold_concatPage (fetchPage : nat -> option AuctionPage.t) (js : list nat) :
  forall acc,
    fold_left concatPage (map fetchPage js) acc
    = acc ++ flat_map (pageAuctions fetchPage) js.
Proof.
  induction js as [|j js IH]; intros acc; cbn [map fold_left flat_map].
  - rewrite app_nil_r. reflexivity.
  - rewrite IH. unfold concatPage, pageAuctions.
    destruct (fetchPage j) as [data|]; [destruct (AuctionPage.success data)|];
      cbn [app]; rewrite <- ?app_assoc; reflexivity.
Qed.

Lemma pagesLoop_flat (fetchPage : nat -> option AuctionPage.t)
    (totalPages i : nat) (allAuctions : list RawAuction) :
  pagesLoop fetchPage totalPages i allAuctions
  = allAuctions ++ flat_map (pageAuctions fetchPage) (seq i (totalPages - i)).
Proof.
  funelim (pagesLoop fetchPage totalPages i allAuctions).
  - rewrite H. rewrite fold_concatPage, <- app_assoc. f_equal.
    rewrite <- flat_map_app. f_equal. unfold chunkSize.
    destruct (le_lt_dec (i + 5) totalPages) as [Hfull|Hpart].
    + replace (Nat.min (i + 5) totalPages - i)%nat with 5%nat by lia.
      replace (totalPages - i)%nat with (5 + (totalPages - (i + 5)))%nat by lia.
      apply eq_sym, seq_app.
    + replace (Nat.min (i + 5) totalPages - i)%nat with (totalPages - i)%nat by lia.
      replace (totalPages - (i + 5))%nat with 0%nat by lia.
      cbn [seq]. apply app_nil_r.
  - replace (totalPages - i)%nat with 0%nat by lia.
    simpl. rewrite app_nil_r. reflexivity.
Qed.

(** X16.  When the first page is read, the call resolves to the auctions
    of the first page followed, in page order, by those of every further
    page below the smaller of the reported page count and [maxPages] that
    loaded and reports success.  A page that failed to load or reports
    failure only contributes nothing, the size of the request chunks does
    not show in the result, and no page from [maxPages] on is used. *)
Theorem feed_pages_in_order :
  forall (firstPageResponse : PageResponse.t)
         (fetchPage : nat -> option AuctionPage.t) (maxPages : nat),
    PageResponse.ok firstPageResponse = true ->
    AuctionPage.success (PageResponse.json firstPageResponse) = true ->
    let firstPageData := PageResponse.json firstPageResponse in
    let totalPages := Nat.min (AuctionPage.totalPages firstPageData) maxPages in
    fetchAllAuctionPages firstPageResponse fetchPage maxPages
    = Resolved (AuctionPage.auctions firstPageData
                ++ flat_map (pageAuctions fetchPage) (seq 1 (totalPages - 1))) /\
    (forall otherPages : nat -> option AuctionPage.t,
       (forall j, (1 <= j < totalPages)%nat -> otherPages j = fetchPage j) ->
       fetchAllAuctionPages firstPageResponse otherPages maxPages
       = fetchAllAuctionPages firstPageResponse fetchPage maxPages) /\
    (forall j data a,
       (1 <= j < totalPages)%nat -> fetchPage j = Some data ->
       AuctionPage.success data = true -> In a (AuctionPage.auctions data) ->
       exists allAuctions,
         fetchAllAuctionPages firstPageResponse fetchPage maxPages
         = Resolved allAuctions /\ In a allAuctions).
Proof.
  intros firstPageResponse fetchPage maxPages Hok Hs firstPageData totalPages.
  assert (E : forall pages,
             fetchAllAuctionPages firstPageResponse pages maxPages
             = Resolved (AuctionPage.auctions firstPageData
                         ++ flat_map (pageAuctions pages) (seq 1 (totalPages - 1)))).
  { intros pages. unfold fetchAllAuctionPages. rewrite Hok, Hs. cbn [negb].
    rewrite pagesLoop_flat. reflexivity. }
  split; [apply E|]. split.
  - intros otherPages Hsame. rewrite !E. f_equal. f_equal.
    apply flat_map_same_on. intros j Hj. apply in_seq in Hj.
    unfold pageAuctions. rewrite Hsame by lia. reflexivity.
  - intros j data a Hj Hf Hd Ha. eexists. split; [apply E|].
    apply in_or_app. right. apply in_flat_map. exists j. split.
    + apply in_seq. lia.
    + unfold pageAuctions. rewrite Hf, Hd. exact Ha.
Qed.

(** X17.  The call fails only on the first page: with "Hypixel API error: "
    and the status text when that response is not ok, with the reported
    cause (or "Failed to fetch auctions." when none is reported) when it
    does not report success; no later page can make it fail. *)
Theorem feed_fails_only_on_first_page :
  forall (firstPageResponse : PageResponse.t)
         (fetchPage : nat -> option AuctionPage.t) (maxPages : nat),
    (PageResponse.ok firstPageResponse = false ->
     fetchAllAuctionPages firstPageResponse fetchPage maxPages
     = Rejected (lit "Hypixel API error: "
                 ++ PageResponse.statusText firstPageResponse)) /\
    (PageResponse.ok firstPageResponse = true ->
     AuctionPage.success (PageResponse.json firstPageResponse) = false ->
     fetchAllAuctionPages firstPageResponse fetchPage maxPages
     = Rejected (match AuctionPage.cause (PageResponse.json firstPageResponse) with
                 | Some (c :: r) => c :: r
                 | _ => lit "Failed to fetch auctions."
                 end)) /\
    (forall message,
       fetchAllAuctionPages firstPageResponse fetchPage maxPages = Rejected message ->
       (PageResponse.ok firstPageResponse = false \/
        AuctionPage.success (PageResponse.json firstPageResponse) = false) /\
       message <> []) /\
    (forall message otherPages,
       fetchAllAuctionPages firstPageResponse fetchPage maxPages = Rejected message ->
       fetchAllAuctionPages firstPageResponse otherPages maxPages = Rejected message).
Proof.
  intros firstPageResponse fetchPage maxPages. unfold fetchAllAuctionPages, orDefault.
  destruct (PageResponse.ok firstPageResponse);
    destruct (AuctionPage.success (PageResponse.json firstPageResponse));
    cbn [negb].
  - split; [discriminate|]. split; [discriminate|]. split; intros; discriminate.
  - split; [discriminate|]. split; [reflexivity|]. split.
    + intros message H. split; [right; reflexivity|].
      inversion H; subst.
      destruct (AuctionPage.cause (PageResponse.json firstPageResponse))
        as [[|c r]|]; discriminate.
    + intros message otherPages H. exact H.
  - split; [reflexivity|]. split; [discriminate|]. split.
    + intros message H. split; [left; reflexivity|].
      inversion H; subst. discriminate.
    + intros message otherPages H. exact H.
  - split; [reflexivity|]. split; [discriminate|]. split.
    + intros message H. split; [left; reflexivity|].
      inversion H; subst. discriminate.
    + intros message otherPages H. exact H.
Qed.


(* --------------------------------------------------------------------- *)
(** *** The items sent to analysis *)

Lemma get_keepLowestBin (m : Map RawAuction) (x : RawAuction) k :
  get (keepLowestBin m x) k
  = if jsstring_eqb (normalizeAuctionName (item_name x)) k
    then Some (match get m k with
               | Some e => if starting_bid x <? starting_bid e then x else e
               | None => x
               end)
    else get m k.
Proof.
  unfold keepLowestBin. set (key := normalizeAuctionName (item_name x)).
  destruct (jsstring_eqb key k) eqn:E.
  - apply jsstring_eqb_eq in E. subst k.
    destruct (get m key) as [e|] eqn:G.
    + destruct (starting_bid x <? starting_bid e); [apply get_set_eq|exact G].
    + apply get_set_eq.
  - assert (Hne : k <> key)
      by (intros ->; rewrite jsstring_eqb_refl in E; discriminate).
    destruct (get m key) as [e|].
    + destruct (starting_bid x <? starting_bid e);
        [apply get_set_neq, Hne|reflexivity].
    + apply get_set_neq, Hne.
Qed.

Lemma keepLowestBin_keys (m : Map RawAuction) (x : RawAuction) :
  NoDup (map fst m) -> NoDup (map fst (keepLowestBin m x)).
Proof.
  intros H. unfold keepLowestBin.
  destruct (get m (normalizeAuctionName (item_name x))) as [e|].
  - destruct (starting_bid x <? starting_bid e); [apply NoDup_keys_set, H|exact H].
  - apply NoDup_keys_set, H.
Qed.

Lemma keepLowestBin_lowestBins (m : Map RawAuction) seen x :
  lowestBins m seen -> lowestBins (keepLowestBin m x) (seen ++ [x]).
Proof.
  intros [Hnd Hinv]. split; [apply keepLowestBin_keys, Hnd|].
  intros k. rewrite get_keepLowestBin. specialize (Hinv k).
  destruct (jsstring_eqb (normalizeAuctionName (item_name x)) k) eqn:E.
  - apply jsstring_eqb_eq in E.
    destruct (get m k) as [e|].
    + destruct Hinv as (He & Hk & Hmin).
      destruct (starting_bid x <? starting_bid e) eqn:L.
      * apply Z.ltb_lt in L. split; [apply in_or_app; right; left; reflexivity|].
        split; [exact E|]. intros a Ha Hn. apply in_app_or in Ha.
        destruct Ha as [Ha|[<-|[]]]; [|lia]. specialize (Hmin a Ha Hn). lia.
      * apply Z.ltb_ge in L. split; [apply in_or_app; left; exact He|].
        split; [exact Hk|]. intros a Ha Hn. apply in_app_or in Ha.
        destruct Ha as [Ha|[<-|[]]]; [exact (Hmin a Ha Hn)|exact L].
    + split; [apply in_or_app; right; left; reflexivity|]. split; [exact E|].
      intros a Ha Hn. apply in_app_or in Ha.
      destruct Ha as [Ha|[<-|[]]]; [exfalso; exact (Hinv a Ha Hn)|lia].
  - assert (Hx : normalizeAuctionName (item_name x) <> k)
      by (intros Hx; rewrite Hx, jsstring_eqb_refl in E; discriminate).
    destruct (get m k) as [e|].
    + destruct Hinv as (He & Hk & Hmin).
      split; [apply in_or_app; left; exact He|]. split; [exact Hk|].
      intros a Ha Hn. apply in_app_or in Ha.
      destruct Ha as [Ha|[<-|[]]]; [exact (Hmin a Ha Hn)|contradiction].
    + intros a Ha. apply in_app_or in Ha.
      destruct Ha as [Ha|[<-|[]]]; [exact (Hinv a Ha)|exact Hx].
Qed.

Lemma fold_keepLowestBin_lowestBins (l : list RawAuction) :
  forall m seen, lowestBins m seen ->
                 lowestBins (fold_left keepLowestBin l m) (seen ++ l).
Proof.
  induction l as [|x l IH]; intros m seen H; cbn [fold_left].
  - rewrite app_nil_r. exact H.
  - replace (seen ++ x :: l) with ((seen ++ [x]) ++ l)
      by (rewrite <- app_assoc; reflexivity).
    apply IH, keepLowestBin_lowestBins, H.
Qed.

Lemma itemMap_lowestBins (activeBins : list RawAuction) :
  lowestBins (fold_left keepLowestBin activeBins []) activeBins.
Proof.
  apply (fold_keepLowestBin_lowestBins activeBins [] []).
  split; [constructor|]. intros k a [].
Qed.

Lemma insertByBidDescending_perm a l :
  Permutation (a :: l) (insertByBidDescending a l).
Proof.
  induction l as [|b r IH]; simpl; [reflexivity|].
  destruct (starting_bid b <=? starting_bid a); [reflexivity|].
  rewrite perm_swap. apply perm_skip, IH.
Qed.

Lemma sortByBidDescending_perm l : Permutation l (sortByBidDescending l).
Proof.
  induction l as [|a l IH]; simpl; [constructor|].
  rewrite <- insertByBidDescending_perm. apply perm_skip, IH.
Qed.

Lemma insertByBidDescending_sorted a l :
  Sorted (fun x y => bidLe y x) l ->
  Sorted (fun x y => bidLe y x) (insertByBidDescending a l).
Proof.
  induction 1 as [|b r Hs IH Hhd]; simpl.
  - repeat constructor.
  - destruct (starting_bid b <=? starting_bid a) eqn:E.
    + apply Z.leb_le in E. repeat constructor; assumption.
    + apply Z.leb_gt in E. constructor; [exact IH|].
      destruct r as [|c r']; simpl.
      * constructor. unfold bidLe. lia.
      * destruct (starting_bid c <=? starting_bid a);
          constructor; unfold bidLe; [lia|].
        inversion Hhd; assumption.
Qed.

Lemma sortByBidDescending_sorted l :
  StronglySorted (fun x y => bidLe y x) (sortByBidDescending l).
Proof.
  apply Sorted_StronglySorted.
  - intros x y z; unfold bidLe; lia.
  - induction l as [|a l IH]; simpl; [constructor|].
    apply insertByBidDescending_sorted, IH.
Qed.

Lemma strong_nth_descending l :
  StronglySorted (fun x y => bidLe y x) l ->
  forall i j a b, (i <= j)%nat ->
    nth_error l i = Some a -> nth_error l j = Some b ->
    starting_bid b <= starting_bid a.
Proof.
  induction 1 as [|x l Hs IH Hall]; intros i j a b Hij Ha Hb.
  - destruct i; discriminate.
  - destruct i as [|i]; destruct j as [|j]; simpl in *; try lia.
    + inversion Ha; inversion Hb; subst; lia.
    + inversion Ha; subst. rewrite Forall_forall in Hall.
      apply (Hall b). eapply nth_error_In; eassumption.
    + eapply IH; [|eassumption|eassumption]. lia.
Qed.

Lemma firstn_In {A} (n : nat) (l : list A) x : In x (firstn n l) -> In x l.
Proof.
  intros H. rewrite <- (firstn_skipn n l). apply in_or_app. left; exact H.
Qed.

Lemma items_from_feed firstPageResponse fetchPage maxItems items :
  fetchItemsForAnalysis firstPageResponse fetchPage maxItems = Resolved items ->
  exists allAuctions,
    fetchAllAuctionPages firstPageResponse fetchPage 10 = Resolved allAuctions /\
    items = itemsForAnalysisOf allAuctions maxItems.
Proof.
  unfold fetchItemsForAnalysis.
  destruct (fetchAllAuctionPages firstPageResponse fetchPage 10) as [all|msg];
    [|discriminate].
  intros H; inversion H; subst. exists all. split; reflexivity.
Qed.

Lemma selected_for_analysis (allAuctions : list RawAuction) (maxItems : nat) auc :
  In auc (firstn maxItems
            (sortByBidDescending
               (filter isInteresting
                  (values (fold_left keepLowestBin
                             (filter isActiveBin allAuctions) []))))) ->
  isInteresting auc = true /\
  In auc (filter isActiveBin allAuctions) /\
  forall a, In a (filter isActiveBin allAuctions) ->
            normalizeAuctionName (item_name a) = normalizeAuctionName (item_name auc) ->
            starting_bid auc <= starting_bid a.
Proof.
  intros H. apply firstn_In in H.
  apply (Permutation_in _ (Permutation_sym (sortByBidDescending_perm _))) in H.
  apply filter_In in H. destruct H as [Hv Hi]. split; [exact Hi|].
  unfold values in Hv. apply in_map_iff in Hv. destruct Hv as ([k e] & <- & Hin).
  destruct (itemMap_lowestBins (filter isActiveBin allAuctions)) as [Hnd Hinv].
  apply (In_get _ _ _ Hnd) in Hin. specialize (Hinv k). rewrite Hin in Hinv.
  destruct Hinv as (He & Hk & Hmin). cbn [snd]. split; [exact He|].
  intros a Ha Hn. apply Hmin; [exact Ha|congruence].
Qed.

(** X18.  Every item sent to analysis is the lowest active fixed-price
    listing of its normalized name among the auctions fetched from at most
    ten pages, and that listing is EPIC, LEGENDARY or MYTHIC, has more
    than 50 code units of lore and costs more than 250,000 coins. *)
Theorem analysis_items_are_lowest_bins :
  forall firstPageResponse fetchPage maxItems items item,
    fetchItemsForAnalysis firstPageResponse fetchPage maxItems = Resolved items ->
    In item items ->
    exists allAuctions auc,
      fetchAllAuctionPages firstPageResponse fetchPage 10 = Resolved allAuctions /\
      In auc allAuctions /\ bin auc = true /\ claimed auc = false /\
      item = toItemForAnalysis auc /\
      250000 < ItemForAnalysis.price item /\
      (ItemForAnalysis.rarity item = EPIC \/
       ItemForAnalysis.rarity item = LEGENDARY \/
       ItemForAnalysis.rarity item = MYTHIC) /\
      (50 < length (ItemForAnalysis.lore item))%nat /\
      forall a, In a allAuctions -> bin a = true -> claimed a = false ->
                normalizeAuctionName (item_name a) = ItemForAnalysis.name item ->
                ItemForAnalysis.price item <= starting_bid a.
Proof.
  intros firstPageResponse fetchPage maxItems items item H Hin.
  destruct (items_from_feed _ _ _ _ H) as (allAuctions & Hfeed & ->).
  unfold itemsForAnalysisOf in Hin. apply in_map_iff in Hin.
  destruct Hin as (auc & <- & Hsel).
  destruct (selected_for_analysis _ _ _ Hsel) as (Hi & Hact & Hmin).
  apply filter_In in Hact. destruct Hact as [Hall Hact].
  unfold isActiveBin in Hact. apply andb_prop in Hact. destruct Hact as [Hb Hc].
  apply negb_true_iff in Hc.
  unfold isInteresting in Hi. apply andb_prop in Hi. destruct Hi as [Hi Hprice].
  apply andb_prop in Hi. destruct Hi as [Hr Hl].
  apply Z.ltb_lt in Hprice. apply Nat.ltb_lt in Hl.
  exists allAuctions, auc. cbn.
  split; [exact Hfeed|]. split; [exact Hall|]. split; [exact Hb|].
  split; [exact Hc|]. split; [reflexivity|]. split; [exact Hprice|].
  split; [destruct (tier auc); try discriminate; auto|]. split; [exact Hl|].
  intros a Ha Hba Hca Hn. apply Hmin; [|exact Hn].
  apply filter_In. split; [exact Ha|]. unfold isActiveBin. rewrite Hba, Hca.
  reflexivity.
Qed.

(** X19.  The items sent to analysis are at most [maxItems], bear pairwise
    distinct names, and come in order of non-increasing price. *)
Theorem analysis_items_list :
  forall firstPageResponse fetchPage maxItems items,
    fetchItemsForAnalysis firstPageResponse fetchPage maxItems = Resolved items ->
    (length items <= maxItems)%nat /\
    NoDup (map ItemForAnalysis.name items) /\
    descendingPrices items.
Proof.
  clear analyzeCraftingRecipe toLowerCase toUpperCase.
  intros firstPageResponse fetchPage maxItems items H.
  destruct (items_from_feed _ _ _ _ H) as (allAuctions & _ & ->).
  unfold itemsForAnalysisOf.
  set (itemMap := fold_left keepLowestBin (filter isActiveBin allAuctions) []).
  set (sorted := sortByBidDescending (filter isInteresting (values itemMap))).
  split; [rewrite length_map, length_firstn; lia|]. split.
  - rewrite map_map. cbn [toItemForAnalysis ItemForAnalysis.name].
    destruct (itemMap_lowestBins (filter isActiveBin allAuctions)) as [Hnd Hinv].
    fold itemMap in Hnd, Hinv.
    assert (Hkeys : map (fun a => normalizeAuctionName (item_name a)) (values itemMap)
                    = map fst itemMap).
    { unfold values. rewrite map_map. apply map_ext_in. intros [k e] Hin.
      apply (In_get _ _ _ Hnd) in Hin. specialize (Hinv k). rewrite Hin in Hinv.
      cbn [fst snd]. tauto. }
    assert (Hv : NoDup (map (fun a => normalizeAuctionName (item_name a))
                            (values itemMap)))
      by (rewrite Hkeys; exact Hnd).
    assert (Hf : NoDup (map (fun a => normalizeAuctionName (item_name a))
                            (filter isInteresting (values itemMap)))).
    { clear -Hv. induction (values itemMap) as [|a l IH]; [constructor|].
      cbn [map] in Hv. inversion Hv as [|? ? Hnot Hv']; subst.
      cbn [filter]. destruct (isInteresting a); [|exact (IH Hv')].
      cbn [map]. constructor; [|exact (IH Hv')].
      intros Hin. apply Hnot. apply in_map_iff in Hin.
      destruct Hin as (b & Hb & Hin). apply filter_In in Hin.
      apply in_map_iff. exists b. tauto. }
    assert (Hs : NoDup (map (fun a => normalizeAuctionName (item_name a)) sorted)).
    { eapply Permutation_NoDup; [|exact Hf].
      apply Permutation_map, sortByBidDescending_perm. }
    rewrite <- (firstn_skipn maxItems sorted) in Hs. rewrite map_app in Hs.
    apply NoDup_app_remove_r in Hs. exact Hs.
  - intros i j x y Hij Hx Hy.
    rewrite nth_error_map in Hx, Hy.
    destruct (nth_error (firstn maxItems sorted) i) as [a|] eqn:Ea; [|discriminate].
    destruct (nth_error (firstn maxItems sorted) j) as [b|] eqn:Eb; [|discriminate].
    cbn in Hx, Hy. inversion Hx; inversion Hy; subst. cbn.
    rewrite nth_error_firstn in Ea, Eb.
    destruct (i <? maxItems)%nat; [|discriminate].
    destruct (j <? maxItems)%nat; [|discriminate].
    exact (strong_nth_descending sorted (sortByBidDescending_sorted _)
             i j a b Hij Ea Eb).
Qed.



(* --------------------------------------------------------------------- *)
(** *** The sortable table of auction flips *)

Lemma compareFlips_le (c : AuctionFlipsView.SortConfig) x y :
  AuctionFlipsView.compareFlips c x y <= 0 <-> inOrder c x y.
Proof.
  unfold AuctionFlipsView.compareFlips, inOrder.
  destruct (AuctionFlipsView.read (AuctionFlipsView.key c) x
            <? AuctionFlipsView.read (AuctionFlipsView.key c) y) eqn:E1;
    [apply Z.ltb_lt in E1|apply Z.ltb_ge in E1];
    [destruct (AuctionFlipsView.direction c); lia|].
  destruct (AuctionFlipsView.read (AuctionFlipsView.key c) y
            <? AuctionFlipsView.read (AuctionFlipsView.key c) x) eqn:E2;
    [apply Z.ltb_lt in E2|apply Z.ltb_ge in E2];
    destruct (AuctionFlipsView.direction c); lia.
Qed.

Lemma inOrder_total c x y : ~ inOrder c x y -> inOrder c y x.
Proof. unfold inOrder. destruct (AuctionFlipsView.direction c); lia. Qed.

Lemma inOrder_trans c x y z : inOrder c x y -> inOrder c y z -> inOrder c x z.
Proof. unfold inOrder. destruct (AuctionFlipsView.direction c); lia. Qed.

Lemma inOrder_differ c x y :
  ~ inOrder c x y ->
  AuctionFlipsView.read (AuctionFlipsView.key c) x
  <> AuctionFlipsView.read (AuctionFlipsView.key c) y.
Proof. unfold inOrder. destruct (AuctionFlipsView.direction c); lia. Qed.

Lemma insertWith_perm {A} (compare : A -> A -> Z) x l :
  Permutation (x :: l) (AuctionFlipsView.insertWith compare x l).
Proof.
  induction l as [|y r IH]; simpl; [reflexivity|].
  destruct (compare x y <=? 0); [reflexivity|].
  rewrite perm_swap. apply perm_skip, IH.
Qed.

Lemma sortWith_perm {A} (compare : A -> A -> Z) l :
  Permutation l (AuctionFlipsView.sortWith compare l).
Proof.
  induction l as [|x l IH]; simpl; [constructor|].
  rewrite <- insertWith_perm. apply perm_skip, IH.
Qed.

Lemma insertWith_sorted c x l :
  Sorted (inOrder c) l ->
  Sorted (inOrder c)
         (AuctionFlipsView.insertWith (AuctionFlipsView.compareFlips c) x l).
Proof.
  induction 1 as [|y r Hs IH Hhd]; simpl.
  - repeat constructor.
  - destruct (AuctionFlipsView.compareFlips c x y <=? 0) eqn:E.
    + apply Z.leb_le, compareFlips_le in E. repeat constructor; assumption.
    + apply Z.leb_gt in E.
      assert (Hyx : inOrder c y x)
        by (apply inOrder_total; rewrite <- compareFlips_le; lia).
      constructor; [exact IH|].
      destruct r as [|z r']; simpl.
      * constructor. exact Hyx.
      * destruct (AuctionFlipsView.compareFlips c x z <=? 0);
          constructor; [exact Hyx|].
        inversion Hhd; assumption.
Qed.

Lemma insertWith_stable c (v : Z) x l :
  filter (fun f => AuctionFlipsView.read (AuctionFlipsView.key c) f =? v)
         (AuctionFlipsView.insertWith (AuctionFlipsView.compareFlips c) x l)
  = filter (fun f => AuctionFlipsView.read (AuctionFlipsView.key c) f =? v) (x :: l).
Proof.
  induction l as [|y r IH]; [reflexivity|].
  cbn [AuctionFlipsView.insertWith].
  destruct (AuctionFlipsView.compareFlips c x y <=? 0) eqn:E; [reflexivity|].
  apply Z.leb_gt in E.
  assert (Hd : AuctionFlipsView.read (AuctionFlipsView.key c) x
               <> AuctionFlipsView.read (AuctionFlipsView.key c) y)
    by (apply inOrder_differ; rewrite <- compareFlips_le; lia).
  cbn [filter] in *. rewrite IH.
  destruct (AuctionFlipsView.read (AuctionFlipsView.key c) x =? v) eqn:Ex;
    destruct (AuctionFlipsView.read (AuctionFlipsView.key c) y =? v) eqn:Ey;
    try reflexivity.
  apply Z.eqb_eq in Ex. apply Z.eqb_eq in Ey. lia.
Qed.

Lemma strong_nth_inOrder c l :
  StronglySorted (inOrder c) l ->
  forall i j x y, (i <= j)%nat ->
    nth_error l i = Some x -> nth_error l j = Some y -> inOrder c x y.
Proof.
  induction 1 as [|a l Hs IH Hall]; intros i j x y Hij Hx Hy.
  - destruct i; discriminate.
  - destruct i as [|i]; destruct j as [|j]; simpl in *; try lia.
    + inversion Hx; inversion Hy; subst.
      unfold inOrder; destruct (AuctionFlipsView.direction c); lia.
    + inversion Hx; subst. rewrite Forall_forall in Hall.
      apply Hall. eapply nth_error_In; eassumption.
    + eapply IH; [|eassumption|eassumption]. lia.
Qed.

(** X21.  The rows of the table are a rearrangement of the flips, ordered
    by the chosen column in the chosen direction, with flips that tie on
    that column left in their order of arrival; without a sort
    configuration the rows are the flips as they came. *)
Theorem table_rows_are_sorted :
  forall (flips : list AuctionFlip.t) (c : AuctionFlipsView.SortConfig),
    let rows := AuctionFlipsView.sortedFlips flips (Some c) in
    Permutation flips rows /\
    (forall i j x y, (i <= j)%nat ->
       nth_error rows i = Some x -> nth_error rows j = Some y -> inOrder c x y) /\
    (forall v,
       filter (fun f => AuctionFlipsView.read (AuctionFlipsView.key c) f =? v) rows
       = filter (fun f => AuctionFlipsView.read (AuctionFlipsView.key c) f =? v) flips) /\
    AuctionFlipsView.sortedFlips flips None = flips.
Proof.
  intros flips c rows. unfold rows, AuctionFlipsView.sortedFlips.
  split; [apply sortWith_perm|]. split; [|split; [|reflexivity]].
  - apply strong_nth_inOrder. apply Sorted_StronglySorted.
    + intros x y z. apply inOrder_trans.
    + induction flips as [|x l IH]; simpl; [constructor|].
      apply insertWith_sorted, IH.
  - intros v. induction flips as [|x l IH]; [reflexivity|].
    cbn [AuctionFlipsView.sortWith fold_right].
    fold (AuctionFlipsView.sortWith (AuctionFlipsView.compareFlips c) l).
    rewrite insertWith_stable. cbn [filter]. rewrite IH. reflexivity.
Qed.

(** X22.  A click on a column header always sorts by that column; the
    direction is descending exactly when the table was already sorted by
    that column ascending, so repeated clicks on one header alternate
    between the two directions, and a click on another column starts
    ascending.  From the initial state a click on Profit sorts ascending. *)
Theorem header_click_toggles :
  forall (sortConfig : option AuctionFlipsView.SortConfig)
         (k : AuctionFlipsView.SortableAuctionKeys),
    exists c1 c2,
      AuctionFlipsView.requestSort sortConfig k = Some c1 /\
      AuctionFlipsView.requestSort (Some c1) k = Some c2 /\
      AuctionFlipsView.requestSort (Some c2) k = Some c1 /\
      AuctionFlipsView.key c1 = k /\ AuctionFlipsView.key c2 = k /\
      AuctionFlipsView.direction c2 <> AuctionFlipsView.direction c1 /\
      (AuctionFlipsView.direction c1 = AuctionFlipsView.descending <->
       sortConfig = Some (AuctionFlipsView.mkSortConfig k AuctionFlipsView.ascending)) /\
      (forall other, other <> k ->
         AuctionFlipsView.requestSort (Some c1) other
         = Some (AuctionFlipsView.mkSortConfig other AuctionFlipsView.ascending)) /\
      AuctionFlipsView.requestSort AuctionFlipsView.initialSortConfig
                                   AuctionFlipsView.profit
      = Some (AuctionFlipsView.mkSortConfig AuctionFlipsView.profit
                                            AuctionFlipsView.ascending).
Proof.
  intros sortConfig k.
  assert (Hrefl : AuctionFlipsView.key_eqb k k = true) by (destruct k; reflexivity).
  assert (Hneq : forall a b, a <> b -> AuctionFlipsView.key_eqb a b = false)
    by (intros a b; destruct a, b; simpl; congruence).
  assert (Heq : forall a b, AuctionFlipsView.key_eqb a b = true -> a = b)
    by (intros a b; destruct a, b; simpl; congruence).
  destruct sortConfig as [[k0 d0]|]; unfold AuctionFlipsView.requestSort;
    cbn [AuctionFlipsView.key AuctionFlipsView.direction].
  - destruct (AuctionFlipsView.key_eqb k0 k) eqn:E; destruct d0;
      cbn [andb AuctionFlipsView.isAscending];
      eexists; eexists;
      cbn [AuctionFlipsView.key AuctionFlipsView.direction];
      rewrite ?Hrefl; cbn [andb AuctionFlipsView.isAscending];
      (split; [reflexivity|]); (split; [reflexivity|]);
      cbn [AuctionFlipsView.key AuctionFlipsView.direction];
      rewrite ?Hrefl; cbn [andb AuctionFlipsView.isAscending];
      (split; [reflexivity|]); (split; [reflexivity|]); (split; [reflexivity|]);
      (split; [discriminate|]);
      (split; [|split; [intros other Ho; rewrite (Hneq k other) by congruence;
                        reflexivity|reflexivity]]).
    + apply Heq in E. subst k0. split; reflexivity.
    + split; [discriminate|]. intros H; inversion H.
    + split; [discriminate|]. intros H; inversion H; subst.
      rewrite Hrefl in E. discriminate.
    + split; [discriminate|]. intros H; inversion H.
  - eexists; eexists.
    cbn [AuctionFlipsView.key AuctionFlipsView.direction].
    rewrite ?Hrefl; cbn [andb AuctionFlipsView.isAscending].
    split; [reflexivity|]. split; [reflexivity|].
    cbn [AuctionFlipsView.key AuctionFlipsView.direction].
    rewrite ?Hrefl; cbn [andb AuctionFlipsView.isAscending].
    split; [reflexivity|]. split; [reflexivity|]. split; [reflexivity|].
    split; [discriminate|]. split; [split; discriminate|].
    split; [|reflexivity].
    intros other Ho. rewrite (Hneq k other) by congruence. reflexivity.
Qed.


(* --------------------------------------------------------------------- *)
(** *** Market trends *)

(** X23.  An item whose analysis failed is never shown among the market
    trends: the sentinel put in its place has no profit.  Every trend
    shown is the analysis of one of the items, in the items' order, with a
    potential profit above 10,000 and a positive estimated value, both the
    rounded figures of the model. *)
Theorem failed_analyses_are_not_shown :
  forall (model : ItemForAnalysis.t -> option MarketTrendsView.ParsedAnalysis)
         (itemsToAnalyze : list ItemForAnalysis.t),
    (forall item, model item = None ->
       MarketTrendsView.isProfitable (MarketTrendsView.trendOf model item) = false) /\
    (forall t, In t (MarketTrendsView.profitableTrends model itemsToAnalyze) ->
       10000 < MarketTrendsView.trendPotentialProfit t /\
       0 < MarketTrendsView.trendEstimatedValue t /\
       exists item parsed,
         In item itemsToAnalyze /\ model item = Some parsed /\
         t = MarketTrendsView.trendOf model item /\
         MarketTrendsView.currentPrice t = ItemForAnalysis.price item /\
         MarketTrendsView.trendPotentialProfit t
         = Math_round (MarketTrendsView.parsedPotentialProfit parsed) /\
         MarketTrendsView.trendEstimatedValue t
         = Math_round (MarketTrendsView.parsedEstimatedValue parsed)) /\
    (length (MarketTrendsView.profitableTrends model itemsToAnalyze)
     <= length itemsToAnalyze)%nat /\
    MarketTrendsView.profitableTrends model itemsToAnalyze
    = map (MarketTrendsView.trendOf model)
          (filter (fun item => MarketTrendsView.isProfitable
                                 (MarketTrendsView.trendOf model item))
                  itemsToAnalyze).
Proof.
  intros model itemsToAnalyze.
  assert (Hfail : forall item, model item = None ->
            MarketTrendsView.isProfitable (MarketTrendsView.trendOf model item) = false).
  { intros item H. unfold MarketTrendsView.isProfitable, MarketTrendsView.trendOf.
    rewrite H. reflexivity. }
  split; [exact Hfail|]. unfold MarketTrendsView.profitableTrends. split; [|split].
  - intros t Hin. apply filter_In in Hin. destruct Hin as [Hin Hp].
    apply in_map_iff in Hin. destruct Hin as (item & <- & Hitem).
    pose proof Hp as Hp'. unfold MarketTrendsView.isProfitable in Hp'.
    apply andb_prop in Hp'. destruct Hp' as [H1 H2].
    apply Z.ltb_lt in H1. apply Z.ltb_lt in H2.
    split; [exact H1|]. split; [exact H2|].
    destruct (model item) as [parsed|] eqn:M;
      [|rewrite (Hfail item M) in Hp; discriminate].
    exists item, parsed. split; [exact Hitem|]. split; [exact M|].
    split; [reflexivity|]. unfold MarketTrendsView.trendOf. rewrite M.
    repeat split.
  - rewrite <- (length_map (MarketTrendsView.trendOf model) itemsToAnalyze).
    apply filter_length_le.
  - induction itemsToAnalyze as [|item l IH]; [reflexivity|].
    cbn [map filter].
    destruct (MarketTrendsView.isProfitable (MarketTrendsView.trendOf model item));
      cbn [map]; rewrite IH; reflexivity.
Qed.

(* --------------------------------------------------------------------- *)
(** *** Lore lines *)








End Properties.

(* ===================================================================== *)
(** ** The properties on concrete inputs *)
(* ===================================================================== *)




Lemma tax_schedule_witness :
  (0 <= 1300000)%Q /\ (1000000 <= 1300000)%Q /\
  calculateAhTax 1300000 = (1300000 * (2 # 100))%Q.
Proof.
  assert (H0 : (0 <= 1300000)%Q) by (unfold Qle; simpl; lia).
  assert (H1 : (1000000 <= 1300000)%Q) by (unfold Qle; simpl; lia).
  split; [exact H0|]. split; [exact H1|].
  destruct (tax_schedule 1300000 H0) as (_ & Hhigh & _).
  exact (Hhigh H1).
Defined.

(** Two listings priced 100 and 150. *)
Lemma small_group_estimate_witness :
  (length (pairGroup) < 3)%nat /\
  findMarketPriceAuction (pairGroup)
  = Some (listing (lit "Hyperion") 150).
Proof.
  assert (Hlen : (length (pairGroup) < 3)%nat) by (simpl; lia).
  split; [exact Hlen|].
  destruct (small_group_estimate _ Hlen) as (_ & Hpair & _).
  apply (Hpair (listing (lit "Hyperion") 100)). reflexivity.
Defined.

Lemma outlierGroup_ascending :
  ascending (outlierGroup).
Proof. repeat constructor; unfold bidLe; simpl; lia. Defined.

(** Nine listings whose dearest one, priced 100,000, is trimmed away. *)
Lemma estimate_in_trimmed_candidates_witness :
  let group := outlierGroup in
  (3 <= length group)%nat /\ ascending group /\
  exists estimate,
    findMarketPriceAuction group = Some estimate /\
    In estimate (filteredCandidatesOf group) /\
    starting_bid estimate < 100000.
Proof.
  intros group.
  assert (Hlen : (3 <= length group)%nat) by (simpl; lia).
  split; [exact Hlen|]. split; [exact outlierGroup_ascending|].
  destruct (estimate_in_trimmed_candidates group Hlen outlierGroup_ascending)
    as (estimate & k & Hest & Hin & _ & _ & _ & Hbelow).
  exists estimate. split; [exact Hest|]. split; [exact Hin|].
  apply (Hbelow (listing (lit "Hyperion") 100000)).
  - simpl. do 7 right. left. reflexivity.
  - intros Hc. apply filter_In in Hc. destruct Hc as [_ Hc].
    vm_compute in Hc. discriminate.
Defined.



Lemma normalized_identity_witness :
  decorates (lit "Hyperion") (lit "§6✪ Hyperion") /\
  decorates (lit "Hyperion") (lit "Hyperion") /\
  normalizeAuctionName (lit "§6✪ Hyperion") = lit "Hyperion".
Proof.
  assert (H1 : decorates (lit "Hyperion") (lit "§6✪ Hyperion")).
  { exists (Escape 54 :: map Plain (lit "✪ Hyperion")), (lit "✪ "), [].
    repeat split. }
  assert (H2 : decorates (lit "Hyperion") (lit "Hyperion")).
  { exists (map Plain (lit "Hyperion")), [], []. repeat split. }
  split; [exact H1|]. split; [exact H2|].
  destruct normalized_identity as (_ & _ & Hcore & _).
  exact (Hcore _ _ H1).
Defined.



Lemma wallCandidates_ascending : ascending (marketCandidatesOf wallGroup).
Proof. repeat constructor; unfold bidLe; simpl; lia. Defined.

(** The candidates 105, 110, 500: n = 3, indices 0 and 2, all three kept. *)
Lemma iqr_fallbacks_unreachable_witness :
  (2 <= length (marketCandidatesOf wallGroup))%nat /\
  ascending (marketCandidatesOf wallGroup) /\
  (3 <= length (filteredCandidatesOf wallGroup))%nat /\
  fst (findMarketPriceAuction_at wallGroup) <> NotEnoughDataForIQR /\
  fst (findMarketPriceAuction_at wallGroup) <> FilteringTooAggressive.
Proof.
  assert (Hlen : (2 <= length (marketCandidatesOf wallGroup))%nat)
    by (simpl; lia).
  split; [exact Hlen|]. split; [exact wallCandidates_ascending|].
  destruct (iqr_fallbacks_unreachable (marketCandidatesOf wallGroup)
              Hlen wallCandidates_ascending)
    as (_ & _ & _ & _ & _ & Hkept & _ & Hsite).
  split; [exact Hkept|].
  destruct (Hsite (listing (lit "Hyperion") 100)) as (Hs1 & Hs2 & _).
  split; [exact Hs1|exact Hs2].
Defined.

(* --------------------------------------------------------------------- *)
(** *** The further properties on concrete inputs *)

Lemma estimate_exists_iff_two_listings_witness :
  findMarketPriceAuction wallGroup <> None /\
  fst (findMarketPriceAuction_at wallGroup) <> NotEnoughDataForIQR.
Proof.
  destruct (estimate_exists_iff_two_listings wallGroup) as (Hnone & _ & Hsite).
  split; [|exact Hsite].
  intros H. apply Hnone in H. simpl in H. lia.
Defined.



Lemma tax_bounds_witness :
  (0 <= 1300000)%Q /\
  (1300000 * (98 # 100) <= 1300000 - calculateAhTax 1300000)%Q.
Proof.
  assert (H0 : (0 <= 1300000)%Q) by (unfold Qle; simpl; lia).
  split; [exact H0|].
  destruct (tax_bounds 1300000 H0) as (_ & _ & Hnet & _). exact Hnet.
Defined.

(** Selling at 1,000,000 leaves 980,000; selling at 999,999 leaves
    989,999.01. *)
Lemma net_proceeds_tiers_witness :
  (999999 < 1000000)%Q /\
  (1000000 - calculateAhTax 1000000 < 999999 - calculateAhTax 999999)%Q.
Proof.
  assert (Hlt : (999999 < 1000000)%Q) by reflexivity.
  split; [exact Hlt|].
  destruct (net_proceeds_tiers 999999 1000000 Hlt) as [_ Hacross].
  apply Hacross; [reflexivity|unfold Qle; simpl; lia|reflexivity].
Defined.

Lemma normalized_name_is_bare_witness :
  bare (normalizeAuctionName (lit "  §6✪ Hyperion ⚚ ")) = true.
Proof.
  destruct (normalized_name_is_bare (lit "  §6✪ Hyperion ⚚ ")) as [Hb _].
  exact Hb.
Defined.

Lemma hyperion_plain : ~ In SECTION_SIGN (lit "Hyperion").
Proof.
  simpl. intros H.
  repeat (destruct H as [H|H]; [discriminate H|]). exact H.
Defined.

Lemma normalization_fixed_points_witness :
  bare (lit "Hyperion") = true /\ ~ In SECTION_SIGN (lit "Hyperion") /\
  normalizeAuctionName (lit "Hyperion") = lit "Hyperion".
Proof.
  assert (Hb : bare (lit "Hyperion") = true) by reflexivity.
  split; [exact Hb|]. split; [exact hyperion_plain|].
  destruct normalization_fixed_points as [Hfix _].
  exact (Hfix _ Hb hyperion_plain).
Defined.

(** The two listings of the first page share one group, in feed order. *)
Lemma groups_partition_by_name_witness :
  In (lit "Hyperion",
      [epic (lit "§6✪ Hyperion") 900000; epic (lit "Hyperion") 800000])
     (entries (groupAuctions
                 [epic (lit "§6✪ Hyperion") 900000; epic (lit "Hyperion") 800000])).
Proof.
  destruct (groups_partition_by_name
              [epic (lit "§6✪ Hyperion") 900000; epic (lit "Hyperion") 800000])
    as (_ & Hgroup & _).
  apply Hgroup. split; [discriminate|reflexivity].
Defined.

Lemma sort_is_stable_witness :
  sortByBid pairGroup = pairGroup /\
  hd_error (filter (fun x => starting_bid x =? 100) pairGroup)
  = Some (listing (lit "Hyperion") 100).
Proof.
  assert (E : sortByBid pairGroup = pairGroup) by reflexivity.
  split; [exact E|].
  destruct (sort_is_stable pairGroup) as (_ & _ & _ & Hhead).
  destruct (Hhead _ _ E) as [_ H]. exact H.
Defined.

Lemma auction_flips_are_sound_witness :
  let allAuctions :=
    [listing (lit "Hyperion") 1300000; listing (lit "§6✪ Hyperion") 1000000] in
  In (sampleFlip 1000000 1300000 274000) (fetchAuctionFlips allAuctions) /\
  50000 <= AuctionFlip.profit (sampleFlip 1000000 1300000 274000).
Proof.
  intros allAuctions.
  assert (Hin : In (sampleFlip 1000000 1300000 274000)
                   (fetchAuctionFlips allAuctions)) by (left; reflexivity).
  split; [exact Hin|].
  destruct (auction_flips_are_sound allAuctions _ Hin) as (_ & _ & Hp & _).
  exact Hp.
Defined.


Lemma snapshot_keys : NoDup (map fst (products (json snapshot))).
Proof. simpl. constructor; [intros []|constructor]. Defined.

Lemma bazaar_prices_lookup_witness :
  exists bazaarPrices,
    fetchBazaarPrices sameCase sameCase snapshot = Resolved bazaarPrices /\
    NoDup (map fst (products (json snapshot))) /\
    forall info, get bazaarPrices (lit "ENCHANTED_DIAMOND") = Some info ->
                 (0 < price info)%Q.
Proof.
  eexists. split; [reflexivity|]. split; [exact snapshot_keys|].
  intros info Hg.
  destruct (bazaar_prices_lookup sameCase sameCase snapshot _ eq_refl snapshot_keys)
    as [_ Hpos].
  exact (Hpos _ _ Hg).
Defined.

Lemma bazaar_readers_fail_alike_witness :
  ok (mkBazaarResponse false (mkBazaarData true None [quote])) = false /\
  fetchBazaarFlips sameCase sameCase
    (mkBazaarResponse false (mkBazaarData true None [quote]))
  = Rejected (lit "Failed to fetch Bazaar data").
Proof.
  split; [reflexivity|].
  destruct (bazaar_readers_fail_alike sameCase sameCase
              (mkBazaarResponse false (mkBazaarData true None [quote])))
    as (_ & Hfail & _).
  exact (Hfail eq_refl).
Defined.




Lemma crafting_call_outcome_witness :
  fetchBazaarPrices sameCase sameCase
    (mkBazaarResponse false (mkBazaarData true None [quote]))
  = Rejected (lit "Failed to fetch Bazaar data") /\
  fetchCraftingFlips sameCase sameCase noRecipe
    (mkBazaarResponse false (mkBazaarData true None [quote]))
    [candidate 1; candidate 2]
  = ([], Rejected (lit "Failed to fetch Bazaar data")).
Proof.
  assert (H : fetchBazaarPrices sameCase sameCase
                (mkBazaarResponse false (mkBazaarData true None [quote]))
              = Rejected (lit "Failed to fetch Bazaar data")) by reflexivity.
  split; [exact H|].
  destruct (crafting_call_outcome sameCase sameCase noRecipe
              (mkBazaarResponse false (mkBazaarData true None [quote]))
              [candidate 1; candidate 2]) as [Hfail _].
  exact (Hfail _ H).
Defined.

(** Page 1 fails and page 2 loads: the auctions of pages 0 and 2. *)
Lemma feed_pages_in_order_witness :
  PageResponse.ok firstPage = true /\
  AuctionPage.success (PageResponse.json firstPage) = true /\
  fetchAllAuctionPages firstPage laterPages 35
  = Resolved [epic (lit "§6✪ Hyperion") 900000; epic (lit "Hyperion") 800000;
              epic (lit "Terminator") 700000].
Proof.
  split; [reflexivity|]. split; [reflexivity|].
  destruct (feed_pages_in_order firstPage laterPages 35 eq_refl eq_refl)
    as [Hall _].
  rewrite Hall. reflexivity.
Defined.

Lemma feed_fails_only_on_first_page_witness :
  PageResponse.ok (PageResponse.mk false (lit "Forbidden")
                     (PageResponse.json firstPage)) = false /\
  fetchAllAuctionPages
    (PageResponse.mk false (lit "Forbidden") (PageResponse.json firstPage))
    laterPages 35
  = Rejected (lit "Hypixel API error: Forbidden").
Proof.
  split; [reflexivity|].
  destruct (feed_fails_only_on_first_page
              (PageResponse.mk false (lit "Forbidden") (PageResponse.json firstPage))
              laterPages 35) as [Hfail _].
  rewrite (Hfail eq_refl). reflexivity.
Defined.

(** Of the two Hyperion listings the cheaper one is sent, after the
    Terminator, which costs less. *)
Lemma analysis_items_witness_items :
  fetchItemsForAnalysis firstPage laterPages 15
  = Resolved [toItemForAnalysis (epic (lit "Hyperion") 800000);
              toItemForAnalysis (epic (lit "Terminator") 700000)].
Proof. reflexivity. Defined.

Lemma analysis_items_are_lowest_bins_witness :
  fetchItemsForAnalysis firstPage laterPages 15
  = Resolved [toItemForAnalysis (epic (lit "Hyperion") 800000);
              toItemForAnalysis (epic (lit "Terminator") 700000)] /\
  In (toItemForAnalysis (epic (lit "Hyperion") 800000))
     [toItemForAnalysis (epic (lit "Hyperion") 800000);
      toItemForAnalysis (epic (lit "Terminator") 700000)] /\
  250000 < ItemForAnalysis.price (toItemForAnalysis (epic (lit "Hyperion") 800000)).
Proof.
  split; [exact analysis_items_witness_items|].
  assert (Hin : In (toItemForAnalysis (epic (lit "Hyperion") 800000))
                   [toItemForAnalysis (epic (lit "Hyperion") 800000);
                    toItemForAnalysis (epic (lit "Terminator") 700000)])
    by (left; reflexivity).
  split; [exact Hin|].
  destruct (analysis_items_are_lowest_bins firstPage laterPages 15 _ _
              analysis_items_witness_items Hin)
    as (allAuctions & auc & _ & _ & _ & _ & _ & Hprice & _).
  exact Hprice.
Defined.

Lemma analysis_items_list_witness :
  fetchItemsForAnalysis firstPage laterPages 15
  = Resolved [toItemForAnalysis (epic (lit "Hyperion") 800000);
              toItemForAnalysis (epic (lit "Terminator") 700000)] /\
  NoDup (map ItemForAnalysis.name
           [toItemForAnalysis (epic (lit "Hyperion") 800000);
            toItemForAnalysis (epic (lit "Terminator") 700000)]).
Proof.
  split; [exact analysis_items_witness_items|].
  destruct (analysis_items_list firstPage laterPages 15 _
              analysis_items_witness_items) as (_ & Hnd & _).
  exact Hnd.
Defined.



(** Sorted by profit, descending: the flip gaining 274,000 comes first. *)
Lemma table_rows_are_sorted_witness :
  AuctionFlipsView.sortedFlips
    [sampleFlip 100 60100 59000; sampleFlip 1000000 1300000 274000]
    AuctionFlipsView.initialSortConfig
  = [sampleFlip 1000000 1300000 274000; sampleFlip 100 60100 59000] /\
  Permutation
    [sampleFlip 100 60100 59000; sampleFlip 1000000 1300000 274000]
    [sampleFlip 1000000 1300000 274000; sampleFlip 100 60100 59000].
Proof.
  split; [reflexivity|].
  destruct (table_rows_are_sorted
              [sampleFlip 100 60100 59000; sampleFlip 1000000 1300000 274000]
              (AuctionFlipsView.mkSortConfig AuctionFlipsView.profit
                                             AuctionFlipsView.descending))
    as [Hperm _].
  exact Hperm.
Defined.

Lemma header_click_toggles_witness :
  AuctionFlipsView.requestSort AuctionFlipsView.initialSortConfig
                               AuctionFlipsView.profit
  = Some (AuctionFlipsView.mkSortConfig AuctionFlipsView.profit
                                        AuctionFlipsView.ascending).
Proof.
  destruct (header_click_toggles AuctionFlipsView.initialSortConfig
                                 AuctionFlipsView.profit)
    as (c1 & c2 & _ & _ & _ & _ & _ & _ & _ & _ & Hinit).
  exact Hinit.
Defined.

Lemma failed_analyses_are_not_shown_witness :
  failingModel (candidate 1) = None /\
  MarketTrendsView.isProfitable
    (MarketTrendsView.trendOf failingModel (candidate 1)) = false.
Proof.
  split; [reflexivity|].
  destruct (failed_analyses_are_not_shown failingModel [candidate 1]) as [Hfail _].
  exact (Hfail (candidate 1) eq_refl).
Defined.


(** Prices 100, 102, 104, 106: no jump above 8%, so the estimate is the
    cheapest candidate, priced 102. *)
Example clustered_prices :
  findMarketPriceAuction_at (hyperions [100; 102; 104; 106])
  = (NoJump, Some (listing (lit "Hyperion") 102)).
Proof. reflexivity. Qed.

(** A single listing gives no estimate and no flip. *)
Example single_listing :
  findMarketPriceAuction (hyperions [100]) = None /\
  fetchAuctionFlips (hyperions [100]) = [].
Proof. split; reflexivity. Qed.

(** The literal of the decorated name, code unit by code unit. *)
Example decorated_name_units :
  lit "§6✪ Hyperion" = [167; 54; 10026; 32; 72; 121; 112; 101; 114; 105; 111; 110].
Proof. reflexivity. Qed.
